(** * Data_Bleed chat backend: the per-session decision engine of [main.py]

    A shallow embedding of the session store, the intent classification by
    keyword lists, the outcome/escalation state machine, the trust-score
    update and persona selection of the chat endpoint, the prompt builder and
    the generation orchestrator with its canned fallbacks.

    Conventions of the embedding.
    - A Python [str] is a [string]; every character is an [ascii]. Case
      folding and whitespace are those of Python on the ASCII range; the
      characters above 127 of the fixed reply templates are written as the
      bytes the source file holds.
    - A Python [int] is a [Z].
    - A [dict] read with [.get(key, default)] is a record whose field is an
      [option]; the module-level dictionaries [session_state] and
      [CHARACTERS] are [gmap]s keyed by strings; the JSON object returned by
      the endpoint is a [gmap] from keys to JSON values.
    - The module-level globals [CHARACTERS] and [client] are fixed at start-up
      and read-only afterwards: they are the variables of a section.
    - The hosted model is an oracle; every invocation of it is recorded in the
      world next to the session store. A completion may come without content
      ([message.content] is an optional string).
    - Logging is not modelled. *)

From Stdlib Require Import ZArith String Ascii List Bool Lia.
From stdpp Require Import gmap strings.

Local Open Scope Z_scope.

(** ** Python string primitives *)

Module Py.

Definition is_upper (c : ascii) : bool :=
  (65 <=? nat_of_ascii c)%nat && (nat_of_ascii c <=? 90)%nat.

Definition lower_char (c : ascii) : ascii :=
  if is_upper c then ascii_of_nat (nat_of_ascii c + 32) else c.

(** [s.lower()] on the ASCII range: the letters A to Z are folded one by
    one and every other character is kept, those above 127 included (Python
    folds some of those too, and the capital sigma by its context; no
    statement below is about such texts unless it holds for them as well). *)
Fixpoint lower (s : string) : string :=
  match s with
  | EmptyString => EmptyString
  | String c r => String (lower_char c) (lower r)
  end.

(** [c.isspace()]: tab, line feed, vertical tab, form feed, carriage
    return, the four separators 28..31 and the space. *)
Definition isspace (c : ascii) : bool :=
  let n := nat_of_ascii c in
  ((9 <=? n)%nat && (n <=? 13)%nat)
  || ((28 <=? n)%nat && (n <=? 31)%nat)
  || (n =? 32)%nat.

Fixpoint lstrip (s : string) : string :=
  match s with
  | EmptyString => EmptyString
  | String c r => if isspace c then lstrip r else s
  end.

Fixpoint rstrip (s : string) : string :=
  match s with
  | EmptyString => EmptyString
  | String c r =>
      match rstrip r with
      | EmptyString => if isspace c then EmptyString else String c EmptyString
      | r' => String c r'
      end
  end.

(** [s.strip()] *)
Definition strip (s : string) : string := rstrip (lstrip s).

(** [k in t] on strings: [k] occurs in [t] as a contiguous substring. *)
Fixpoint contains (k t : string) : bool :=
  String.prefix k t
  || match t with
     | EmptyString => false
     | String _ r => contains k r
     end.

(** [s[:n]] *)
Definition slice_to (n : nat) (s : string) : string := String.substring 0 n s.

(** [not s] on a string *)
Definition is_empty (s : string) : bool :=
  match s with EmptyString => true | _ => false end.

(** [s.isascii()]: every character is below 128. *)
Fixpoint is_ascii (s : string) : bool :=
  match s with
  | EmptyString => true
  | String c r => (nat_of_ascii c <? 128)%nat && is_ascii r
  end.

Definition nl : string := String "010"%char EmptyString.

End Py.

(** ** Character catalogue ([characters.json]) *)

Record IntentRules := {
  success_keywords : option (list string);
  fail_keywords : option (list string)
}.

Record Thresholds := {
  warn_after : option Z;
  fail_after : option Z
}.

Record CharCfg := {
  intent_rules : option IntentRules;
  thresholds : option Thresholds;
  lore : option string
}.

(** [rules.get("success_keywords", [])] after [char_cfg.get("intent_rules", {})] *)
Definition rules_of (char_cfg : CharCfg) : IntentRules :=
  default {| success_keywords := None; fail_keywords := None |}
          (intent_rules char_cfg).

Definition get_success_keywords (rules : IntentRules) : list string :=
  default [] (success_keywords rules).

Definition get_fail_keywords (rules : IntentRules) : list string :=
  default [] (fail_keywords rules).

(** [char_cfg.get("thresholds", {"warn_after": 2, "fail_after": 4})] *)
Definition thresholds_of (char_cfg : CharCfg) : Thresholds :=
  default {| warn_after := Some 2; fail_after := Some 4 |}
          (thresholds char_cfg).

Definition get_warn_after (t : Thresholds) : Z := default 2 (warn_after t).
Definition get_fail_after (t : Thresholds) : Z := default 4 (fail_after t).

(** ** Sessions *)

(** One entry of [session_state]. The key ["character"] is always present;
    ["wrong_count"], ["logo_stage"] and ["trust_score"] are read with
    [.get], and ["trust_score"] is absent until the first chat request. *)
Record Session := {
  character : string;
  wrong_count : option Z;
  logo_stage : option Z;
  trust_score : option Z
}.

Definition get_wrong_count (s : Session) : Z := default 0 (wrong_count s).
Definition get_logo_stage (s : Session) : Z := default 1 (logo_stage s).
Definition get_trust_score (s : Session) : Z := default 0 (trust_score s).

Definition set_wrong_count (v : Z) (s : Session) : Session :=
  {| character := character s; wrong_count := Some v;
     logo_stage := logo_stage s; trust_score := trust_score s |}.

Definition set_logo_stage (v : Z) (s : Session) : Session :=
  {| character := character s; wrong_count := wrong_count s;
     logo_stage := Some v; trust_score := trust_score s |}.

Definition set_trust_score (v : Z) (s : Session) : Session :=
  {| character := character s; wrong_count := wrong_count s;
     logo_stage := logo_stage s; trust_score := Some v |}.

(** The dictionary literal of [get_session]. *)
Definition new_session (ch : string) : Session :=
  {| character := ch; wrong_count := Some 0; logo_stage := Some 1;
     trust_score := None |}.

(** [get_session(session_id, character)]: returns the updated store and the
    session it holds under [session_id] (the caller mutates that very
    object, so writes to it are writes to the store). The final
    [session_state[session_id]] cannot miss: the first test has inserted
    the key when it was absent. *)
Definition get_session (session_state : gmap string Session)
    (session_id ch : string) : gmap string Session * Session :=
  let st1 :=
    match session_state !! session_id with
    | None => <[session_id := new_session ch]> session_state
    | Some _ => session_state
    end in
  let st2 :=
    match st1 !! session_id with
    | Some s =>
        if String.eqb (character s) ch then st1
        else <[session_id := new_session ch]> st1
    | None => st1
    end in
  (st2, default (new_session ch) (st2 !! session_id)).

(** ** Helpers *)

(** [contains_any(text, keywords)] *)
Definition contains_any (text : string) (keywords : list string) : bool :=
  let t := Py.lower text in
  existsb (fun k => Py.contains (Py.lower k) t) keywords.

(** [decide_outcome_and_update(session, char_cfg, user_msg, used_ai_fallback)]:
    the updated session and the returned label. *)
Definition decide_outcome_and_update (session : Session) (char_cfg : CharCfg)
    (user_msg : string) (used_ai_fallback : bool) : Session * string :=
  let rules := rules_of char_cfg in
  let thresholds := thresholds_of char_cfg in
  if contains_any user_msg (get_success_keywords rules) then
    let session := set_wrong_count (Z.max 0 (get_wrong_count session - 1)) session in
    let session := set_logo_stage 1 session in
    (session, "success")
  else if contains_any user_msg (get_fail_keywords rules) then
    let session := set_wrong_count (get_wrong_count session + 1) session in
    let session := set_logo_stage (Z.min 5 (get_logo_stage session + 1)) session in
    if get_fail_after thresholds <=? get_wrong_count session
    then (session, "fail")
    else (session, "neutral")
  else if used_ai_fallback then
    let session := set_wrong_count (get_wrong_count session + 1) session in
    let session :=
      if get_warn_after thresholds <=? get_wrong_count session
      then set_logo_stage (Z.min 5 (get_logo_stage session + 1)) session
      else session in
    if get_fail_after thresholds <=? get_wrong_count session
    then (session, "fail")
    else (session, "neutral")
  else (session, "neutral").

(** [build_system_prompt(character, char_cfg, persona_prompt)] *)
Definition build_system_prompt (ch : string) (char_cfg : CharCfg)
    (persona_prompt : string) : string :=
  let base := persona_prompt in
  let lore := default "" (lore char_cfg) in
  let guardrails :=
    "Stay strictly in-character. Be concise. Your goal is to advance the narrative of the Data_Bleed game." in
  base +:+ Py.nl +:+ Py.nl +:+ "Game Lore Context:" +:+ Py.nl +:+ lore
       +:+ Py.nl +:+ Py.nl +:+ "Rules:" +:+ Py.nl +:+ guardrails.

(** ** Canned replies of the generation orchestrator *)

(** [get_rate_limit_fallback(character, user_message)]: fallback for rate limit errors. *)
Definition get_rate_limit_fallback (ch user_message : string) : string :=
  let responses : gmap string string :=
    <[ "maya" :=
           "â³ Maya here - I'm getting a lot of messages right now. Give me a moment to process your message about '" +:+ Py.slice_to 30 user_message
           +:+ "...' and I'll respond thoughtfully." ]>
   (<[ "eli" :=
           "â³ Eli speaking - Whoa, lots of activity! Let me catch up on your message about '" +:+ Py.slice_to 30 user_message
           +:+ "...' Just need a sec to think it through." ]>
    {[ "stanley" :=
           "â³ Stanley here - I'm processing many conversations right now. Your message about '" +:+ Py.slice_to 30 user_message
           +:+ "...' is important, just give me a moment." ]}) in
  default "â³ I'm experiencing high traffic right now. Please try again in a moment."
          (responses !! ch).

(** [get_connection_fallback(character, user_message)]: fallback for connection/timeout errors. *)
Definition get_connection_fallback (ch user_message : string) : string :=
  let responses : gmap string string :=
    <[ "maya" :=
           "ğŸ”„ Maya here - I'm having some connection issues, but I caught your message about '" +:+ Py.slice_to 30 user_message
           +:+ "...' Let me give you a quick response while I reconnect." ]>
   (<[ "eli" :=
           "ğŸ”„ Eli speaking - Network's being wonky, but I heard you mention '" +:+ Py.slice_to 30 user_message
           +:+ "...' Let me work with what I've got here." ]>
    {[ "stanley" :=
           "ğŸ”„ Stanley here - Technical difficulties on my end, but regarding your message about '" +:+ Py.slice_to 30 user_message
           +:+ "...' I can still help you out." ]}) in
  default "ğŸ”„ I'm experiencing connection issues. Please try again shortly."
          (responses !! ch).

(** [get_invalid_request_fallback(character, user_message)]: fallback for invalid request errors. *)
Definition get_invalid_request_fallback (ch user_message : string) : string :=
  let responses : gmap string string :=
    <[ "maya" :=
           "ğŸ¤” Maya here - Something about your message '" +:+ Py.slice_to 30 user_message
           +:+ "...' is causing me technical issues. Could you rephrase that?" ]>
   (<[ "eli" :=
           "ğŸ¤” Eli speaking - Your message '" +:+ Py.slice_to 30 user_message
           +:+ "...' is breaking my brain a bit. Mind trying a different way to say that?" ]>
    {[ "stanley" :=
           "ğŸ¤” Stanley here - I'm having trouble processing '" +:+ Py.slice_to 30 user_message
           +:+ "...' Could you try asking that differently?" ]}) in
  default "ğŸ¤” I'm having trouble understanding that request. Could you rephrase it?"
          (responses !! ch).

(** [get_generic_ai_fallback(character, user_message)]: generic fallback for unknown ai errors. *)
Definition get_generic_ai_fallback (ch user_message : string) : string :=
  let responses : gmap string string :=
    <[ "maya" :=
           "âš ï¸ Maya here - I'm having some technical difficulties, but I understand you're asking about '" +:+ Py.slice_to 30 user_message
           +:+ "...' Let me try to help despite the issues." ]>
   (<[ "eli" :=
           "âš ï¸ Eli speaking - My AI systems are acting up, but I caught your message about '" +:+ Py.slice_to 30 user_message
           +:+ "...' I'll do my best to respond." ]>
    {[ "stanley" :=
           "âš ï¸ Stanley here - Technical problems on my end, but regarding '" +:+ Py.slice_to 30 user_message
           +:+ "...' I'll give you what I can." ]}) in
  default "âš ï¸ I'm experiencing technical difficulties. Please try again later."
          (responses !! ch).

(** [get_demo_mode_response(character, user_message)]: demo mode responses when no openai client is available. *)
Definition get_demo_mode_response (ch user_message : string) : string :=
  let demo_responses : gmap string string :=
    <[ "maya" :=
           "ğŸ‘‹ Hi! I'm Maya. I received your message: '" +:+ Py.slice_to 50 user_message
           +:+ "...' This is demo mode - add your OpenAI API key for full AI responses." ]>
   (<[ "eli" :=
           "ğŸ‘‹ Hey! Eli here. Got your message: '" +:+ Py.slice_to 50 user_message
           +:+ "...' Running in demo mode - need OpenAI API key for smart responses." ]>
    {[ "stanley" :=
           "ğŸ‘‹ Hello! Stanley speaking. About your message: '" +:+ Py.slice_to 50 user_message
           +:+ "...' This is demo mode - please configure OpenAI API key." ]}) in
  default "ğŸ‘‹ Demo mode - please configure OpenAI API key for full functionality."
          (demo_responses !! ch).

(** ** The hosted model and the world *)

(** One completion request: the number of requests made before it, the
    system prompt and the user message. The answer is what the [try] block of
    [generate_ai_response] yields: the content of the first choice, which is
    [None] when the completion has no content, or the description [str(e)]
    of the exception raised. *)
Definition LLM : Type := nat -> string -> string -> option string + string.

(** The mutable state of the process: the session store and the requests
    sent to the hosted model so far, as (system prompt, user message). *)
Record World := {
  session_state : gmap string Session;
  llm_calls : list (string * string)
}.

(** ** The HTTP interface *)

Record ChatRequest := {
  req_message : string;
  req_character : string;
  req_sessionId : option string
}.

(** The four [HTTPException]s the chat endpoint raises, all with status 400. *)
Inductive HTTPException :=
| CharacterRequired
| UnknownCharacter (ch : string)
| MessageEmpty
| MessageTooLong.

Definition status_code (e : HTTPException) : Z := 400.

Inductive JVal :=
| JStr (s : string)
| JInt (z : Z).

Definition GUARDIAN_PROMPT : string :=
  "You are a calm, empathetic guide. Your goal is to help the player spot red flags and stay safe.".
Definition DECEIVER_PROMPT : string :=
  "You are manipulative, deceptive, and persuasive. Your goal is to lure the player into making risky decisions.".

(** The three sanitised inputs of [chat]:
    [(req.character or "").lower().strip()], [req.message.strip()] and
    [req.sessionId or "default"]. *)
Definition chat_character (req : ChatRequest) : string :=
  Py.strip (Py.lower (req_character req)).

Definition chat_user_message (req : ChatRequest) : string :=
  Py.strip (req_message req).

Definition chat_session_id (req : ChatRequest) : string :=
  match req_sessionId req with
  | Some s => if Py.is_empty s then "default" else s
  | None => "default"
  end.

(** The block "Update trust_score based on intent_rules" of [chat]. *)
Definition update_trust_score (char_cfg : CharCfg) (user_message : string)
    (trust_score : Z) : Z :=
  let rules := rules_of char_cfg in
  if contains_any user_message (get_success_keywords rules) then trust_score - 20
  else if contains_any user_message (get_fail_keywords rules) then trust_score + 20
  else trust_score.

(** The block "Select persona based on trust_score" of [chat]: the persona
    prompt and the persona label. *)
Definition select_persona (trust_score : Z) : string * string :=
  if 0 <=? trust_score then (DECEIVER_PROMPT, "deceiver")
  else (GUARDIAN_PROMPT, "guardian").

(** The reply of the last-resort handler of [chat]. *)
Definition LAST_RESORT_REPLY : string :=
  "âš ï¸ I'm experiencing technical difficulties right now. Please try again in a moment.".

Section Server.

(** The globals of the module, set once when it is loaded. *)
Variable CHARACTERS : gmap string CharCfg.
Variable client : option LLM.

(** [generate_ai_response(character, user_message, system_prompt, request_id)],
    threading the log of requests to the hosted model. The value returned is
    a string, or [None] when the completion has no content. *)
Definition generate_ai_response (ch user_message system_prompt request_id : string)
    (calls : list (string * string)) : option string * list (string * string) :=
  match client with
  | Some complete =>
      let calls' := calls ++ [(system_prompt, user_message)] in
      match complete (length calls) system_prompt user_message with
      | inl reply_text => (reply_text, calls')
      | inr e =>
          let error_str := Py.lower e in
          if Py.contains "rate limit" error_str || Py.contains "429" error_str then
            (Some (get_rate_limit_fallback ch user_message), calls')
          else if Py.contains "timeout" error_str || Py.contains "connection" error_str then
            (Some (get_connection_fallback ch user_message), calls')
          else if Py.contains "invalid" error_str || Py.contains "400" error_str then
            (Some (get_invalid_request_fallback ch user_message), calls')
          else
            (Some (get_generic_ai_fallback ch user_message), calls')
      end
  | None => (Some (get_demo_mode_response ch user_message), calls)
  end.

(** [chat(req, request)]: the new world and either the raised
    [HTTPException] or the returned JSON object. After validation one step
    can raise: [len(reply_text)] when the reply is [None]. The last-resort
    [except Exception] handler then answers with a fixed object; the trust
    score has been stored and the model has been called by then. *)
Definition chat (w : World) (req : ChatRequest) (request_id : string)
    : World * (HTTPException + gmap string JVal) :=
  let ch := chat_character req in
  let user_message := chat_user_message req in
  let session_id := chat_session_id req in
  if Py.is_empty ch then (w, inl CharacterRequired)
  else match CHARACTERS !! ch with
  | None => (w, inl (UnknownCharacter ch))
  | Some char_cfg =>
      if Py.is_empty user_message then (w, inl MessageEmpty)
      else if (1000 <? String.length user_message)%nat then (w, inl MessageTooLong)
      else
        let '(st, session) := get_session (session_state w) session_id ch in
        let trust_score := get_trust_score session in
        let trust_score := update_trust_score char_cfg user_message trust_score in
        let st := <[session_id := set_trust_score trust_score session]> st in
        let '(persona_prompt, persona) := select_persona trust_score in
        let system_prompt := build_system_prompt ch char_cfg persona_prompt in
        let '(reply_text, calls) :=
          generate_ai_response ch user_message system_prompt request_id (llm_calls w) in
        ({| session_state := st; llm_calls := calls |},
         match reply_text with
         | Some reply_text =>
             inr (<[ "reply" := JStr reply_text ]>
                 (<[ "trust_score" := JInt trust_score ]>
                 (<[ "persona" := JStr persona ]>
                  {[ "request_id" := JStr request_id ]})))
         | None =>
             inr (<[ "reply" := JStr LAST_RESORT_REPLY ]>
                 (<[ "trust_score" := JInt 0 ]>
                 (<[ "persona" := JStr "guardian" ]>
                 (<[ "request_id" := JStr request_id ]>
                  {[ "error" := JStr "Technical difficulties" ]}))))
         end)
  end.

End Server.

(** ** Runs and requests *)

(** [k] occurs in [t]: some text before it, some text after it. *)
Definition occurs_in (k t : string) : Prop :=
  exists pre post, t = pre +:+ k +:+ post.

(** A sequence of calls of [decide_outcome_and_update] on one session: the
    final session and the labels returned, in order. *)
Fixpoint run_engine (session : Session)
    (inputs : list (CharCfg * string * bool)) : Session * list string :=
  match inputs with
  | [] => (session, [])
  | (char_cfg, user_msg, used_ai_fallback) :: rest =>
      let '(session', outcome) :=
        decide_outcome_and_update session char_cfg user_msg used_ai_fallback in
      let '(final, outcomes) := run_engine session' rest in
      (final, outcome :: outcomes)
  end.

(** A sequence of chat requests against one server: the final world and the
    results, in order. *)
Fixpoint run_chat (CHARACTERS : gmap string CharCfg) (client : option LLM)
    (w : World) (reqs : list (ChatRequest * string))
    : World * list (HTTPException + gmap string JVal) :=
  match reqs with
  | [] => (w, [])
  | (req, request_id) :: rest =>
      let '(w', r) := chat CHARACTERS client w req request_id in
      let '(final, rs) := run_chat CHARACTERS client w' rest in
      (final, r :: rs)
  end.

(** The requests that pass the validation of [chat]: the sanitised character
    is a key of the catalogue, the stripped message is not empty and has at
    most 1000 characters. *)
Definition accepted (CHARACTERS : gmap string CharCfg) (req : ChatRequest)
    (char_cfg : CharCfg) : Prop :=
  chat_character req <> EmptyString
  /\ CHARACTERS !! chat_character req = Some char_cfg
  /\ chat_user_message req <> EmptyString
  /\ (String.length (chat_user_message req) <= 1000)%nat.

(** The trust score a session of the store currently has; 0 when there is
    no such session. *)
Definition trust_of (w : World) (session_id : string) : Z :=
  from_option get_trust_score 0 (session_state w !! session_id).

(** The scenario of the specification: one keyword per list, warning after
    two wrong answers and failure after four. *)
Module Scenario.

Definition rules : IntentRules :=
  {| success_keywords := Some ["sorry"];
     fail_keywords := Some ["click here"] |}.

Definition cfg : CharCfg :=
  {| intent_rules := Some rules;
     thresholds := Some {| warn_after := Some 2; fail_after := Some 4 |};
     lore := Some "A stranger on a trading forum." |}.

Definition catalog : gmap string CharCfg :=
  <[ "maya" := cfg ]> {[ "eli" := cfg ]}.

Definition start : World := {| session_state := ∅; llm_calls := [] |}.

Definition request (ch message : string) : ChatRequest :=
  {| req_message := message; req_character := ch;
     req_sessionId := Some "s1" |}.

(** A hosted model whose every request raises with description [e]. *)
Definition failing (e : string) : LLM := fun _ _ _ => inr e.

(** A hosted model that answers every request with [text]. *)
Definition answering (text : string) : LLM := fun _ _ _ => inl (Some text).

(** A hosted model whose every completion comes without content. *)
Definition silent : LLM := fun _ _ _ => inl None.

End Scenario.

(** The bounds the engine keeps on the two counters of a session. *)
Definition counters_ok (s : Session) : Prop :=
  0 <= get_wrong_count s /\ 1 <= get_logo_stage s <= 5.

(** The trust score a request for [(session_id, ch)] starts from: the stored
    one when the session exists and is bound to [ch], 0 otherwise. *)
Definition carried_trust (w : World) (session_id ch : string) : Z :=
  match session_state w !! session_id with
  | Some s => if String.eqb (character s) ch then get_trust_score s else 0
  | None => 0
  end.

(** A result of [chat] that is a JSON object, not an [HTTPException]. *)
Definition answered (r : HTTPException + gmap string JVal) : Prop :=
  exists resp, r = inr resp.

(** ** The rest of the module *)

(** One entry of a character's knowledge list: the keys ["q"] and ["a"],
    both read with [.get]. *)
Record KnowledgeItem := {
  item_q : option string;
  item_a : option string
}.

(** The [for] loop of [match_knowledge] over the items, [msg] being the
    lower-cased and stripped message. *)
Fixpoint match_knowledge_items (msg : string) (knowledge : list KnowledgeItem)
    : option string :=
  match knowledge with
  | [] => None
  | item :: rest =>
      let q := Py.lower (default "" (item_q item)) in
      if negb (Py.is_empty q) && Py.contains q msg then item_a item
      else match_knowledge_items msg rest
  end.

(** [match_knowledge(user_msg, knowledge)] *)
Definition match_knowledge (user_msg : string)
    (knowledge : list KnowledgeItem) : option string :=
  let msg := Py.strip (Py.lower user_msg) in
  match_knowledge_items msg knowledge.

(** The [for] loop of [match_global_knowledge] over the items of
    [GLOBAL_KNOWLEDGE], in the order of the dictionary. *)
Fixpoint match_global_items (msg : string) (items : list (string * string))
    : option string :=
  match items with
  | [] => None
  | (key, value) :: rest =>
      if Py.contains (Py.lower key) msg then Some value
      else match_global_items msg rest
  end.

(** [match_global_knowledge(user_msg)], the dictionary [GLOBAL_KNOWLEDGE]
    being given as its items in order. *)
Definition match_global_knowledge (GLOBAL_KNOWLEDGE : list (string * string))
    (user_msg : string) : option string :=
  let msg := Py.strip (Py.lower user_msg) in
  match_global_items msg GLOBAL_KNOWLEDGE.

(** The answer of the reset endpoint; the constant ["ok": True] and the
    timestamp are left out. *)
Record ResetResponse := {
  reset_session_id : string;
  session_existed : bool;
  reset_request_id : string
}.

(** The [HTTPException] of the reset endpoint: status 400, "Invalid session
    ID". *)
Inductive ResetError :=
| InvalidSessionID.

(** [reset_session(request, sessionId)]: the new store and either the raised
    exception or the answer. [sessionId] is the parameter after the default
    ["default"] has been applied to an absent one; [None] is an explicit
    null. *)
Definition reset_session (session_state : gmap string Session)
    (sessionId : option string) (request_id : string)
    : gmap string Session * (ResetError + ResetResponse) :=
  match sessionId with
  | None => (session_state, inl InvalidSessionID)
  | Some sid =>
      if Py.is_empty sid || (100 <? String.length sid)%nat
      then (session_state, inl InvalidSessionID)
      else
        let existed := bool_decide (is_Some (session_state !! sid)) in
        (delete sid session_state,
         inr {| reset_session_id := sid; session_existed := existed;
                reset_request_id := request_id |})
  end.

(** What [load_json_from_candidates] does: it returns the content of a
    file, or the read of the first existing file raises, or no candidate
    exists ([FileNotFoundError]). *)
Inductive LoadResult (J : Type) :=
| Loaded (content : J)
| ReadRaised (path : string)
| NoCandidate.

Arguments Loaded {J} content.
Arguments ReadRaised {J} path.
Arguments NoCandidate {J}.

(** [load_json_from_candidates(candidates)] over a file system given by
    [path_exists] ([os.path.exists]) and [read_json] ([open] followed by
    [json.load], [None] when one of them raises). *)
Fixpoint load_json_from_candidates {J : Type} (path_exists : string -> bool)
    (read_json : string -> option J) (candidates : list string)
    : LoadResult J :=
  match candidates with
  | [] => NoCandidate
  | p :: rest =>
      if path_exists p then
        match read_json p with
        | Some content => Loaded content
        | None => ReadRaised p
        end
      else load_json_from_candidates path_exists read_json rest
  end.

Definition CHAR_PATHS : list string :=
  ["chroma-bot/assets/config/characters.json"; "characters.json"].

(** The start-up block that sets [CHARACTERS]: the loaded content, or the
    empty dictionary [empty] when the loader raised. *)
Definition load_characters {J : Type} (empty : J)
    (path_exists : string -> bool) (read_json : string -> option J) : J :=
  match load_json_from_candidates path_exists read_json CHAR_PATHS with
  | Loaded content => content
  | ReadRaised _ | NoCandidate => empty
  end.

(** Truth value of an environment variable read with [os.getenv]: set and
    not empty. *)
Definition env_truthy (v : option string) : bool :=
  match v with
  | Some s => negb (Py.is_empty s)
  | None => false
  end.

(** [get_cors_origins()], the environment being the values of
    [RAILWAY_ENVIRONMENT] and [PORT]. *)
Definition get_cors_origins (RAILWAY_ENVIRONMENT PORT : option string)
    : list string :=
  let is_production := env_truthy RAILWAY_ENVIRONMENT || env_truthy PORT in
  if is_production then
    ["https://chroma-bot-game.vercel.app";
     "https://data-bleed-vsc-game.vercel.app"]
  else
    ["https://data-bleed-vsc-game.vercel.app";
     "http://127.0.0.1:8080";
     "http://localhost:8080";
     "http://127.0.0.1:3001";
     "http://localhost:3001";
     "http://localhost:3000";
     "null"].

(** A sequence of calls of the outcome engine with one configuration and one
    message, [n] times, with fallback flag [fb]. *)
Definition repeat_engine (session : Session) (char_cfg : CharCfg)
    (msg : string) (fb : bool) (n : nat) : Session * list string :=
  run_engine session (replicate n (char_cfg, msg, fb)).

(** What holds of every session of a store that only the chat endpoint has
    written, after at most [n] requests: it is stored under a non-empty id,
    bound to a character of the catalogue, its engine counters are the
    initial ones, and its trust score is a multiple of 20 between [-20 n]
    and [20 n]. *)
Definition chat_store_ok (CHARACTERS : gmap string CharCfg) (n : Z)
    (st : gmap string Session) : Prop :=
  forall sid s, st !! sid = Some s ->
    sid <> EmptyString
    /\ is_Some (CHARACTERS !! character s)
    /\ wrong_count s = Some 0
    /\ logo_stage s = Some 1
    /\ (20 | get_trust_score s)
    /\ - (20 * n) <= get_trust_score s <= 20 * n.

(** The completion the client returns for a request has no content; never
    so without a client. *)
Definition no_content (client : option LLM) (calls : list (string * string))
    (system_prompt user_message : string) : Prop :=
  match client with
  | Some complete =>
      complete (length calls) system_prompt user_message = inl None
  | None => False
  end.

(** A result of [chat] that is an [HTTPException]. *)
Definition rejected (r : HTTPException + gmap string JVal) : Prop :=
  exists e, r = inl e.

(** * Properties *)

(** Acceptance of a concrete request, by evaluation of the four tests. *)
Ltac solve_accepted :=
  unfold accepted; split; [|split; [|split]];
  [ vm_compute; discriminate
  | vm_compute; reflexivity
  | vm_compute; discriminate
  | apply Nat.leb_le; vm_compute; reflexivity ].

(** ** Substring search and keyword matching *)

Lemma append_cons (c : ascii) (s t : string) :
  String c s +:+ t = String c (s +:+ t).
Proof. reflexivity. Qed.

Lemma prefix_app (k t : string) :
  String.prefix k t = true <-> exists post, t = k +:+ post.
Proof.
  revert t. induction k as [|c k IH]; intros t.
  - split; [intros _; exists t; reflexivity | destruct t; reflexivity].
  - destruct t as [|d t]; simpl.
    + split; [discriminate | intros [post H]; discriminate].
    + destruct (ascii_dec c d) as [->|Hne].
      * rewrite IH. split; intros [post H]; exists post.
        -- rewrite append_cons. congruence.
        -- rewrite append_cons in H. congruence.
      * split; [discriminate | intros [post H]].
        rewrite append_cons in H. congruence.
Qed.

Lemma contains_occurs (k t : string) :
  Py.contains k t = true <-> occurs_in k t.
Proof.
  unfold occurs_in. induction t as [|d t IH].
  - change (Py.contains k EmptyString)
      with (String.prefix k EmptyString || false).
    rewrite orb_false_r, prefix_app. split.
    + intros [post H]. exists EmptyString, post. exact H.
    + intros [[|c pre] [post H]]; [exists post; exact H | discriminate].
  - change (Py.contains k (String d t))
      with (String.prefix k (String d t) || Py.contains k t).
    rewrite orb_true_iff, IH, prefix_app. split.
    + intros [[post H]|[pre [post H]]].
      * exists EmptyString, post. exact H.
      * exists (String d pre), post. rewrite append_cons. congruence.
    + intros [[|c pre] [post H]].
      * left. exists post. exact H.
      * right. exists pre, post. rewrite append_cons in H. congruence.
Qed.

Lemma contains_any_spec (text : string) (keywords : list string) :
  contains_any text keywords = true <->
  exists k, k ∈ keywords /\ occurs_in (Py.lower k) (Py.lower text).
Proof.
  unfold contains_any. rewrite existsb_exists. split.
  - intros [k [Hin Hc]]. exists k. split.
    + apply list_elem_of_In, Hin.
    + apply contains_occurs, Hc.
  - intros [k [Hin Hc]]. exists k. split.
    + apply list_elem_of_In, Hin.
    + apply contains_occurs, Hc.
Qed.

(** ** The session store *)

(** [get_session] in one case analysis: a session bound to the requested
    character is returned as it is; otherwise a new one replaces it. *)
Lemma get_session_cases (st : gmap string Session) (sid ch : string) :
  get_session st sid ch =
  match st !! sid with
  | Some s =>
      if String.eqb (character s) ch then (st, s)
      else (<[sid := new_session ch]> st, new_session ch)
  | None => (<[sid := new_session ch]> st, new_session ch)
  end.
Proof.
  unfold get_session. destruct (st !! sid) as [s|] eqn:E.
  - rewrite E. destruct (String.eqb (character s) ch) eqn:Ec.
    + rewrite E. reflexivity.
    + rewrite lookup_insert_eq. reflexivity.
  - rewrite lookup_insert_eq. simpl. rewrite String.eqb_refl.
    rewrite lookup_insert_eq. reflexivity.
Qed.

Lemma get_session_stored (st : gmap string Session) (sid ch : string) :
  (get_session st sid ch).1 !! sid = Some (get_session st sid ch).2.
Proof.
  rewrite get_session_cases. destruct (st !! sid) as [s|] eqn:E.
  - destruct (String.eqb (character s) ch); simpl;
      [exact E | apply lookup_insert_eq].
  - simpl. apply lookup_insert_eq.
Qed.

Lemma get_session_character (st : gmap string Session) (sid ch : string) :
  character (get_session st sid ch).2 = ch.
Proof.
  rewrite get_session_cases. destruct (st !! sid) as [s|].
  - destruct (String.eqb (character s) ch) eqn:Ec; simpl;
      [apply String.eqb_eq, Ec | reflexivity].
  - reflexivity.
Qed.

Lemma get_session_other (st : gmap string Session) (sid ch sid' : string) :
  sid' <> sid -> (get_session st sid ch).1 !! sid' = st !! sid'.
Proof.
  intros Hne. rewrite get_session_cases. destruct (st !! sid) as [s|].
  - destruct (String.eqb (character s) ch); simpl;
      [reflexivity | apply lookup_insert_ne; congruence].
  - simpl. apply lookup_insert_ne. congruence.
Qed.

(** ** The chat endpoint, case by case *)

Section ChatFacts.

Variable CHARACTERS : gmap string CharCfg.
Variable client : option LLM.

Lemma is_empty_false (s : string) : s <> EmptyString -> Py.is_empty s = false.
Proof. destruct s; [congruence | reflexivity]. Qed.

(** What [chat] does with a request that passes validation. *)
Lemma chat_accepted (w : World) (req : ChatRequest) (rid : string)
    (char_cfg : CharCfg) :
  accepted CHARACTERS req char_cfg ->
  let ch := chat_character req in
  let msg := chat_user_message req in
  let sid := chat_session_id req in
  let gs := get_session (session_state w) sid ch in
  let t := update_trust_score char_cfg msg (get_trust_score gs.2) in
  let g := generate_ai_response client ch msg
             (build_system_prompt ch char_cfg (select_persona t).1) rid
             (llm_calls w) in
  chat CHARACTERS client w req rid =
    ({| session_state := <[sid := set_trust_score t gs.2]> gs.1;
        llm_calls := g.2 |},
     match g.1 with
     | Some reply =>
         inr (<[ "reply" := JStr reply ]>
             (<[ "trust_score" := JInt t ]>
             (<[ "persona" := JStr (select_persona t).2 ]>
              {[ "request_id" := JStr rid ]})))
     | None =>
         inr (<[ "reply" := JStr LAST_RESORT_REPLY ]>
             (<[ "trust_score" := JInt 0 ]>
             (<[ "persona" := JStr "guardian" ]>
             (<[ "request_id" := JStr rid ]>
              {[ "error" := JStr "Technical difficulties" ]}))))
     end).
Proof.
  intros (Hch & Hcat & Hmsg & Hlen). cbv zeta. unfold chat.
  rewrite (is_empty_false _ Hch), Hcat, (is_empty_false _ Hmsg).
  destruct (1000 <? String.length (chat_user_message req))%nat eqn:El.
  { apply Nat.ltb_lt in El. lia. }
  destruct (get_session _ _ _) as [st session]. cbn [fst snd].
  destruct (select_persona _) as [pp persona]. cbn [fst snd].
  destruct (generate_ai_response _ _ _ _ _ _) as [reply calls]. reflexivity.
Qed.

(** A request that fails validation leaves the world as it was. *)
Lemma chat_rejected_world (w : World) (req : ChatRequest) (rid : string)
    (e : HTTPException) :
  (chat CHARACTERS client w req rid).2 = inl e ->
  (chat CHARACTERS client w req rid).1 = w.
Proof.
  unfold chat. destruct (Py.is_empty (chat_character req)); [reflexivity|].
  destruct (CHARACTERS !! chat_character req); [|reflexivity].
  destruct (Py.is_empty (chat_user_message req)); [reflexivity|].
  destruct (1000 <? String.length (chat_user_message req))%nat; [reflexivity|].
  destruct (get_session _ _ _) as [st session].
  destruct (select_persona _) as [pp persona].
  destruct (generate_ai_response _ _ _ _ _ _) as [[reply|] calls];
    discriminate.
Qed.

(** A request that is answered was accepted. *)
Lemma chat_answered_accepted (w : World) (req : ChatRequest) (rid : string)
    (resp : gmap string JVal) :
  (chat CHARACTERS client w req rid).2 = inr resp ->
  exists char_cfg, accepted CHARACTERS req char_cfg.
Proof.
  unfold chat, accepted.
  destruct (chat_character req) eqn:Ec; [discriminate|]. simpl.
  destruct (CHARACTERS !! String a s) as [cfg|]; [|discriminate].
  destruct (chat_user_message req) eqn:Em; [discriminate|]. simpl Py.is_empty.
  cbv iota.
  destruct (1000 <? String.length (String a0 s0))%nat eqn:El; [discriminate|].
  intros _. exists cfg. apply Nat.ltb_ge in El. repeat split; congruence || lia.
Qed.

End ChatFacts.

(** The orchestrator returns [None] exactly when the completion has no
    content; every other path returns a text. *)
Lemma generate_reply_cases (client : option LLM)
    (ch msg sp rid : string) (calls : list (string * string)) :
  ((generate_ai_response client ch msg sp rid calls).1 = None
   /\ no_content client calls sp msg)
  \/ (exists text,
        (generate_ai_response client ch msg sp rid calls).1 = Some text
        /\ ~ no_content client calls sp msg).
Proof.
  unfold generate_ai_response, no_content.
  destruct client as [complete|]; [|right; eexists; split; [reflexivity|tauto]].
  destruct (complete (length calls) sp msg) as [[text|]|e].
  - right. eexists. split; [reflexivity | discriminate].
  - left. split; reflexivity.
  - right. destruct (_ || _); [eexists; split; [reflexivity | discriminate]|].
    destruct (_ || _); [eexists; split; [reflexivity | discriminate]|].
    destruct (_ || _); eexists; (split; [reflexivity | discriminate]).
Qed.

(** The trust score stored by an accepted request. *)
Lemma trust_of_chat (CHARACTERS : gmap string CharCfg) (client : option LLM)
    (w : World) (req : ChatRequest) (rid : string) (char_cfg : CharCfg) :
  accepted CHARACTERS req char_cfg ->
  trust_of (chat CHARACTERS client w req rid).1 (chat_session_id req) =
  update_trust_score char_cfg (chat_user_message req)
    (get_trust_score
       (get_session (session_state w) (chat_session_id req)
          (chat_character req)).2).
Proof.
  intros Hacc. rewrite (chat_accepted _ _ _ _ _ _ Hacc).
  unfold trust_of. cbn [fst session_state].
  rewrite lookup_insert_eq. reflexivity.
Qed.

(** ** The outcome engine *)

Lemma decide_success (s : Session) (char_cfg : CharCfg) (msg : string)
    (fb : bool) :
  contains_any msg (get_success_keywords (rules_of char_cfg)) = true ->
  decide_outcome_and_update s char_cfg msg fb =
  (set_logo_stage 1 (set_wrong_count (Z.max 0 (get_wrong_count s - 1)) s),
   "success").
Proof. intros H. unfold decide_outcome_and_update. rewrite H. reflexivity. Qed.

Lemma decide_label_success (s : Session) (char_cfg : CharCfg) (msg : string)
    (fb : bool) :
  (decide_outcome_and_update s char_cfg msg fb).2 = "success" ->
  contains_any msg (get_success_keywords (rules_of char_cfg)) = true.
Proof.
  unfold decide_outcome_and_update.
  destruct (contains_any msg (get_success_keywords _)); [reflexivity|].
  destruct (contains_any msg (get_fail_keywords _)).
  { destruct (_ <=? _); discriminate. }
  destruct fb; [|discriminate].
  destruct (get_fail_after _ <=? _); discriminate.
Qed.

Lemma new_session_counters_ok (ch : string) : counters_ok (new_session ch).
Proof. unfold counters_ok. cbn. lia. Qed.

Lemma decide_counters_ok (s : Session) (char_cfg : CharCfg) (msg : string)
    (fb : bool) :
  counters_ok s ->
  counters_ok (decide_outcome_and_update s char_cfg msg fb).1.
Proof.
  unfold counters_ok, decide_outcome_and_update.
  intros [Hw [Hl Hu]].
  destruct (contains_any msg (get_success_keywords _)).
  { cbn. lia. }
  destruct (contains_any msg (get_fail_keywords _)).
  { destruct (_ <=? _); cbn; fold (get_wrong_count s) (get_logo_stage s); lia. }
  destruct fb; [|cbn; lia].
  destruct (get_warn_after _ <=? _); destruct (get_fail_after _ <=? _);
    cbn; fold (get_wrong_count s) (get_logo_stage s); lia.
Qed.

Lemma run_engine_counters_ok (inputs : list (CharCfg * string * bool))
    (s : Session) :
  counters_ok s -> counters_ok (run_engine s inputs).1.
Proof.
  revert s. induction inputs as [|[[cfg msg] fb] rest IH]; intros s Hs.
  - exact Hs.
  - cbn [run_engine].
    pose proof (decide_counters_ok s cfg msg fb Hs) as Hstep.
    destruct (decide_outcome_and_update s cfg msg fb) as [s' o].
    specialize (IH s' Hstep).
    destruct (run_engine s' rest) as [final os]. exact IH.
Qed.

(** C2, as the specification words it, does not hold: after four
    ["click here"] messages on a fresh session of the scenario character the
    engine has not [wrong_count = 4], [logo_stage = 3] and a last label
    ["fail"]; the stage it reaches is not 3. *)
Lemma four_click_here_stage_is_not_three :
  let r := run_engine (get_session ∅ "s1" "maya").2
             (replicate 4 (Scenario.cfg, "click here", false)) in
  ~ (get_wrong_count r.1 = 4 /\ get_logo_stage r.1 = 3
     /\ last r.2 = Some "fail").
Proof.
  vm_compute. intros (_ & H & _). discriminate H.
Qed.

(** C2, amended: on a fresh session of the scenario character (keywords
    ["sorry"] / ["click here"], warning after 2, failure after 4), four
    consecutive ["click here"] messages, with or without a fallback reply,
    leave [wrong_count = 4] and [logo_stage = 5]: every message matching a
    fail keyword raises the stage by one, 1, 2, 3, 4, 5. The labels returned
    are neutral, neutral, neutral and, for the fourth message, fail. *)
Theorem four_click_here_scenario (sid ch : string) (fb1 fb2 fb3 fb4 : bool) :
  let r := run_engine (get_session ∅ sid ch).2
             [(Scenario.cfg, "click here", fb1);
              (Scenario.cfg, "click here", fb2);
              (Scenario.cfg, "click here", fb3);
              (Scenario.cfg, "click here", fb4)] in
  get_wrong_count r.1 = 4 /\ get_logo_stage r.1 = 5
  /\ r.2 = ["neutral"; "neutral"; "neutral"; "fail"].
Proof.
  rewrite get_session_cases, lookup_empty. cbn [snd].
  repeat split; reflexivity.
Qed.

(** C4: whatever sequence of messages, character configurations and
    fallback flags the outcome engine processes on a session created by
    [get_session], the session's [wrong_count] is at least 0 and its
    [logo_stage] lies between 1 and 5; and whenever a further call returns
    the label ["success"], the stage is 1 right after it. *)
Theorem engine_counters_bounded (ch : string)
    (inputs : list (CharCfg * string * bool)) :
  let s := (run_engine (new_session ch) inputs).1 in
  0 <= get_wrong_count s
  /\ 1 <= get_logo_stage s <= 5
  /\ forall char_cfg msg fb,
       (decide_outcome_and_update s char_cfg msg fb).2 = "success" ->
       get_logo_stage (decide_outcome_and_update s char_cfg msg fb).1 = 1.
Proof.
  intros s.
  destruct (run_engine_counters_ok inputs (new_session ch)
              (new_session_counters_ok ch)) as [Hw Hl].
  split; [exact Hw|]. split; [exact Hl|].
  intros cfg msg fb Hlabel. apply decide_label_success in Hlabel.
  rewrite (decide_success _ _ _ _ Hlabel). reflexivity.
Qed.

Lemma engine_counters_bounded_witness :
  get_logo_stage
    (decide_outcome_and_update
       (run_engine (new_session "maya")
          [(Scenario.cfg, "click here", false);
           (Scenario.cfg, "what is this?", true)]).1
       Scenario.cfg "Sorry about that" false).1 = 1.
Proof.
  apply (proj2 (proj2 (engine_counters_bounded "maya"
          [(Scenario.cfg, "click here", false);
           (Scenario.cfg, "what is this?", true)]))).
  vm_compute. reflexivity.
Defined.

(** C5: when the message holds, compared without case, both a success
    keyword and a fail keyword of the character, it is classified Success.
    The outcome engine returns ["success"], lowers [wrong_count] by one (not
    below 0) and resets the stage; the trust-score update of the chat
    endpoint, applied to the message it has stripped, subtracts 20. The
    success keywords are tested first in both places. *)
Theorem success_keyword_wins_tie (char_cfg : CharCfg) (msg ks kf : string) :
  ks ∈ get_success_keywords (rules_of char_cfg) ->
  occurs_in (Py.lower ks) (Py.lower msg) ->
  kf ∈ get_fail_keywords (rules_of char_cfg) ->
  occurs_in (Py.lower kf) (Py.lower msg) ->
  (forall s fb,
     decide_outcome_and_update s char_cfg msg fb =
     (set_logo_stage 1 (set_wrong_count (Z.max 0 (get_wrong_count s - 1)) s),
      "success"))
  /\ (forall t, update_trust_score char_cfg msg t = t - 20)
  /\ (forall CHARACTERS client w req rid,
        accepted CHARACTERS req char_cfg ->
        chat_user_message req = msg ->
        trust_of (chat CHARACTERS client w req rid).1 (chat_session_id req) =
        get_trust_score
          (get_session (session_state w) (chat_session_id req)
             (chat_character req)).2 - 20).
Proof.
  intros Hks Hos _ _.
  assert (Hs : contains_any msg (get_success_keywords (rules_of char_cfg)) = true).
  { apply contains_any_spec. exists ks. split; assumption. }
  assert (Ht : forall t, update_trust_score char_cfg msg t = t - 20).
  { intros t. unfold update_trust_score. rewrite Hs. reflexivity. }
  split; [|split].
  - intros s fb. apply decide_success, Hs.
  - exact Ht.
  - intros CHARACTERS client w req rid Hacc Hmsg.
    rewrite (trust_of_chat _ _ _ _ _ _ Hacc), Hmsg. apply Ht.
Qed.

Lemma success_keyword_wins_tie_witness :
  (decide_outcome_and_update (new_session "maya") Scenario.cfg
     "Sorry, I will not CLICK HERE" false).2 = "success"
  /\ update_trust_score Scenario.cfg "Sorry, I will not CLICK HERE" 40 = 20.
Proof.
  assert (H1 : "sorry" ∈ get_success_keywords (rules_of Scenario.cfg)).
  { apply list_elem_of_In. simpl. left. reflexivity. }
  assert (H2 : occurs_in (Py.lower "sorry")
                 (Py.lower "Sorry, I will not CLICK HERE")).
  { exists "", ", i will not click here". reflexivity. }
  assert (H3 : "click here" ∈ get_fail_keywords (rules_of Scenario.cfg)).
  { apply list_elem_of_In. simpl. left. reflexivity. }
  assert (H4 : occurs_in (Py.lower "click here")
                 (Py.lower "Sorry, I will not CLICK HERE")).
  { exists "sorry, i will not ", "". reflexivity. }
  destruct (success_keyword_wins_tie Scenario.cfg
              "Sorry, I will not CLICK HERE" "sorry" "click here"
              H1 H2 H3 H4) as (Hd & Ht & _).
  split.
  - rewrite Hd. reflexivity.
  - rewrite Ht. reflexivity.
Defined.

(** ** The chat endpoint *)

(** C1, as the specification words it, does not hold: an accepted request
    (character ["maya"] of the catalogue, message ["hello"]) is answered
    with an object that has no ["outcome"] entry; its keys are ["reply"],
    ["trust_score"], ["persona"] and ["request_id"]. *)
Lemma chat_reply_has_no_outcome :
  accepted Scenario.catalog (Scenario.request "maya" "hello") Scenario.cfg
  /\ exists resp,
       (chat Scenario.catalog None Scenario.start
          (Scenario.request "maya" "hello") "r1").2 = inr resp
       /\ resp !! "outcome" = None
       /\ dom resp = ({[ "reply"; "trust_score"; "persona"; "request_id" ]}
                      : gset string).
Proof.
  split; [solve_accepted|].
  eexists. split; [vm_compute; reflexivity|].
  split; vm_compute; reflexivity.
Qed.

(** C1, amended: for every request whose sanitised character is a key of
    the catalogue and whose stripped message is non-empty and at most 1000
    characters long, [chat] returns an object that holds ["reply"],
    ["trust_score"], ["persona"] (["guardian"] or ["deceiver"]) and
    ["request_id"], and no outcome label. When a reply text was produced, by
    the model or as a canned reply, these are its only keys and
    ["trust_score"] is the trust score now stored in the session. When the
    completion came without content, the object is that of the last-resort
    handler: the fixed reply, ["trust_score"] 0 and ["persona"] guardian
    whatever the session holds, and a fifth key ["error"]. *)
Theorem chat_reply_record (CHARACTERS : gmap string CharCfg)
    (client : option LLM) (w : World) (req : ChatRequest) (rid : string)
    (char_cfg : CharCfg) :
  accepted CHARACTERS req char_cfg ->
  let r := chat CHARACTERS client w req rid in
  let t := trust_of r.1 (chat_session_id req) in
  let prompt :=
    build_system_prompt (chat_character req) char_cfg (select_persona t).1 in
  let silent :=
    no_content client (llm_calls w) prompt (chat_user_message req) in
  exists resp reply trust persona,
    r.2 = inr resp
    /\ resp !! "reply" = Some (JStr reply)
    /\ resp !! "trust_score" = Some (JInt trust)
    /\ resp !! "persona" = Some (JStr persona)
    /\ (persona = "guardian" \/ persona = "deceiver")
    /\ resp !! "request_id" = Some (JStr rid)
    /\ resp !! "outcome" = None
    /\ (~ silent ->
        trust = t
        /\ dom resp = ({[ "reply"; "trust_score"; "persona"; "request_id" ]}
                       : gset string))
    /\ (silent ->
        reply = LAST_RESORT_REPLY /\ trust = 0 /\ persona = "guardian"
        /\ dom resp =
           ({[ "reply"; "trust_score"; "persona"; "request_id"; "error" ]}
            : gset string)).
Proof.
  intros Hacc r t prompt silent. subst r t prompt silent.
  rewrite (trust_of_chat _ _ _ _ _ _ Hacc).
  rewrite (chat_accepted _ _ _ _ _ _ Hacc). cbn [snd].
  set (t := update_trust_score _ _ _).
  destruct (generate_reply_cases client (chat_character req)
              (chat_user_message req)
              (build_system_prompt (chat_character req) char_cfg
                 (select_persona t).1) rid (llm_calls w))
    as [[Hg Hsilent]|[text [Hg Hsilent]]]; rewrite Hg.
  - eexists _, _, _, _. split; [reflexivity|].
    split; [apply lookup_insert_eq|].
    split; [rewrite lookup_insert_ne by discriminate; apply lookup_insert_eq|].
    split; [do 2 (rewrite lookup_insert_ne by discriminate);
            apply lookup_insert_eq|].
    split; [left; reflexivity|].
    split; [do 3 (rewrite lookup_insert_ne by discriminate);
            apply lookup_insert_eq|].
    split; [do 4 (rewrite lookup_insert_ne by discriminate);
            apply lookup_singleton_ne; discriminate|].
    split; [intros Hn; contradiction|].
    intros _. do 3 (split; [reflexivity|]).
    rewrite !dom_insert_L, dom_singleton_L. set_solver.
  - eexists _, _, _, _. split; [reflexivity|].
    split; [apply lookup_insert_eq|].
    split; [rewrite lookup_insert_ne by discriminate; apply lookup_insert_eq|].
    split; [do 2 (rewrite lookup_insert_ne by discriminate);
            apply lookup_insert_eq|].
    split.
    { unfold select_persona. destruct (0 <=? _); [right|left]; reflexivity. }
    split; [do 3 (rewrite lookup_insert_ne by discriminate);
            apply lookup_singleton_eq|].
    split; [do 3 (rewrite lookup_insert_ne by discriminate);
            apply lookup_singleton_ne; discriminate|].
    split; [|intros Hs; contradiction].
    intros _. split; [reflexivity|].
    rewrite !dom_insert_L, dom_singleton_L. set_solver.
Qed.

Lemma chat_reply_record_witness :
  exists resp,
    (chat Scenario.catalog None Scenario.start
       (Scenario.request "maya" "click here") "r1").2 = inr resp
    /\ resp !! "trust_score" = Some (JInt 20)
    /\ resp !! "outcome" = None
    /\ dom resp = ({[ "reply"; "trust_score"; "persona"; "request_id" ]}
                   : gset string).
Proof.
  destruct (chat_reply_record Scenario.catalog None Scenario.start
              (Scenario.request "maya" "click here") "r1" Scenario.cfg)
    as (resp & reply & trust & persona & Hr & _ & Ht & _ & _ & _ & Ho & Hn & _).
  - solve_accepted.
  - destruct Hn as [Htrust Hdom]; [intros H; exact H|].
    exists resp. split; [exact Hr|]. split; [|split; [exact Ho | exact Hdom]].
    rewrite Ht, Htrust. reflexivity.
Defined.

Lemma get_session_trust (w : World) (sid ch : string) :
  get_trust_score (get_session (session_state w) sid ch).2 =
  carried_trust w sid ch.
Proof.
  unfold carried_trust. rewrite get_session_cases.
  destruct (session_state w !! sid) as [s|]; [|reflexivity].
  destruct (String.eqb (character s) ch); reflexivity.
Qed.

(** C3: a chat request never changes the two counters of the outcome
    engine. A rejected request leaves the whole world as it was. An answered
    request leaves every other session as it was, and the session it
    addresses keeps its [wrong_count] and [logo_stage] when it was already
    bound to the requested character; a session that is new or bound to
    another character is the one [get_session] creates, with counters 0 and
    1. Only [trust_score] is written; [decide_outcome_and_update] is not part
    of [chat]. *)
Theorem chat_keeps_engine_counters (CHARACTERS : gmap string CharCfg)
    (client : option LLM) (w : World) (req : ChatRequest) (rid : string) :
  let r := chat CHARACTERS client w req rid in
  let sid := chat_session_id req in
  let ch := chat_character req in
  (forall sid', sid' <> sid ->
     session_state r.1 !! sid' = session_state w !! sid')
  /\ match r.2 with
     | inl _ => r.1 = w
     | inr _ =>
         exists s',
           session_state r.1 !! sid = Some s'
           /\ character s' = ch
           /\ match session_state w !! sid with
              | Some s =>
                  if String.eqb (character s) ch
                  then wrong_count s' = wrong_count s
                       /\ logo_stage s' = logo_stage s
                  else wrong_count s' = Some 0 /\ logo_stage s' = Some 1
              | None => wrong_count s' = Some 0 /\ logo_stage s' = Some 1
              end
     end.
Proof.
  intros r sid ch. subst r.
  destruct (chat CHARACTERS client w req rid).2 as [e|resp] eqn:E.
  - rewrite (chat_rejected_world _ _ _ _ _ _ E). split; reflexivity.
  - destruct (chat_answered_accepted _ _ _ _ _ _ E) as [cfg Hacc].
    rewrite (chat_accepted _ _ _ _ _ _ Hacc). cbn [fst session_state].
    fold sid ch. split.
    + intros sid' Hne. rewrite lookup_insert_ne by congruence.
      apply get_session_other, Hne.
    + eexists. split; [apply lookup_insert_eq|].
      split; [apply get_session_character|].
      cbn [wrong_count logo_stage set_trust_score].
      rewrite get_session_cases.
      destruct (session_state w !! sid) as [s|]; [|split; reflexivity].
      destruct (String.eqb (character s) ch); split; reflexivity.
Qed.

Lemma chat_keeps_engine_counters_witness :
  let old := {| character := "maya"; wrong_count := Some 3;
                logo_stage := Some 4; trust_score := Some 60 |} in
  let w := {| session_state := {[ "s1" := old ]}; llm_calls := [] |} in
  exists s',
    session_state
      (chat Scenario.catalog None w
         (Scenario.request "maya" "click here") "r1").1 !! "s1" = Some s'
    /\ wrong_count s' = Some 3
    /\ logo_stage s' = Some 4
    /\ trust_score s' = Some 80.
Proof.
  intros old w.
  destruct (chat_keeps_engine_counters Scenario.catalog None w
              (Scenario.request "maya" "click here") "r1") as [_ H].
  vm_compute in H. destruct H as (s' & Hs & _ & Hw & Hl).
  exists s'. split; [exact Hs|]. split; [exact Hw|]. split; [exact Hl|].
  injection Hs as <-. reflexivity.
Defined.

(** C7, as the specification words it, does not hold on every answer: with
    a model whose completion comes without content, a first message
    ["click here"] stores the trust score 20, and the answer of the
    last-resort handler carries the persona ["guardian"] (and the trust
    score 0). *)
Lemma last_resort_persona_ignores_trust :
  accepted Scenario.catalog (Scenario.request "maya" "click here") Scenario.cfg
  /\ exists resp,
       (chat Scenario.catalog (Some Scenario.silent) Scenario.start
          (Scenario.request "maya" "click here") "r1").2 = inr resp
       /\ trust_of
            (chat Scenario.catalog (Some Scenario.silent) Scenario.start
               (Scenario.request "maya" "click here") "r1").1 "s1" = 20
       /\ resp !! "persona" = Some (JStr "guardian")
       /\ resp !! "trust_score" = Some (JInt 0).
Proof.
  split; [solve_accepted|].
  eexists. split; [vm_compute; reflexivity|].
  split; [vm_compute; reflexivity|].
  split; vm_compute; reflexivity.
Qed.

(** C7, amended: whenever a reply text was produced, by the model or as a
    canned reply, the persona returned is read off the trust score the
    session holds once this request has updated it, and off nothing else:
    it is ["deceiver"] exactly when that score is at least 0, and
    ["guardian"] exactly when it is negative. When the completion came
    without content, the last-resort handler answers ["guardian"] with
    trust score 0, whatever score is stored. *)
Theorem persona_follows_trust_score (CHARACTERS : gmap string CharCfg)
    (client : option LLM) (w : World) (req : ChatRequest) (rid : string)
    (char_cfg : CharCfg) :
  accepted CHARACTERS req char_cfg ->
  let r := chat CHARACTERS client w req rid in
  let t := trust_of r.1 (chat_session_id req) in
  let prompt :=
    build_system_prompt (chat_character req) char_cfg (select_persona t).1 in
  let silent :=
    no_content client (llm_calls w) prompt (chat_user_message req) in
  exists resp persona,
    r.2 = inr resp
    /\ resp !! "persona" = Some (JStr persona)
    /\ (~ silent ->
        persona = (select_persona t).2
        /\ (persona = "deceiver" <-> 0 <= t)
        /\ (persona = "guardian" <-> t < 0))
    /\ (silent ->
        persona = "guardian" /\ resp !! "trust_score" = Some (JInt 0)).
Proof.
  intros Hacc r t prompt silent. subst r t prompt silent.
  rewrite (trust_of_chat _ _ _ _ _ _ Hacc).
  rewrite (chat_accepted _ _ _ _ _ _ Hacc). cbn [snd].
  set (t := update_trust_score _ _ _).
  destruct (generate_reply_cases client (chat_character req)
              (chat_user_message req)
              (build_system_prompt (chat_character req) char_cfg
                 (select_persona t).1) rid (llm_calls w))
    as [[Hg Hsilent]|[text [Hg Hsilent]]]; rewrite Hg.
  - eexists _, _. split; [reflexivity|].
    split; [do 2 (rewrite lookup_insert_ne by discriminate);
            apply lookup_insert_eq|].
    split; [intros Hn; contradiction|].
    intros _. split; [reflexivity|].
    rewrite lookup_insert_ne by discriminate. apply lookup_insert_eq.
  - eexists _, _. split; [reflexivity|].
    split; [do 2 (rewrite lookup_insert_ne by discriminate);
            apply lookup_insert_eq|].
    split; [|intros Hs; contradiction].
    intros _. split; [reflexivity|].
    unfold select_persona.
    destruct (0 <=? t) eqn:Et; cbn [snd].
    + apply Z.leb_le in Et. split; split; (reflexivity || discriminate || lia).
    + apply Z.leb_gt in Et. split; split; (reflexivity || discriminate || lia).
Qed.

Lemma persona_follows_trust_score_witness :
  exists resp,
    (chat Scenario.catalog None Scenario.start
       (Scenario.request "maya" "I am sorry") "r1").2 = inr resp
    /\ resp !! "persona" = Some (JStr "guardian")
    /\ trust_of
         (chat Scenario.catalog None Scenario.start
            (Scenario.request "maya" "I am sorry") "r1").1 "s1" < 0.
Proof.
  destruct (persona_follows_trust_score Scenario.catalog None Scenario.start
              (Scenario.request "maya" "I am sorry") "r1" Scenario.cfg)
    as (resp & persona & Hr & Hp & Hn & _).
  - solve_accepted.
  - destruct Hn as (_ & _ & Hg); [intros H; exact H|].
    exists resp. split; [exact Hr|].
    assert (Hlt : trust_of
              (chat Scenario.catalog None Scenario.start
                 (Scenario.request "maya" "I am sorry") "r1").1 "s1" < 0)
      by (vm_compute; reflexivity).
    split; [|exact Hlt].
    rewrite Hp. do 2 f_equal. apply Hg. exact Hlt.
Defined.

(** C8: when the store holds a session under the requested id that is bound
    to another character, [get_session] throws it away, whatever its
    counters were, and stores and returns a new one: bound to the requested
    character, [wrong_count] 0, [logo_stage] 1 and no stored trust score, so
    that the trust score read from it is 0; the other sessions stay. A chat
    request that rebinds a session therefore ends with counters 0 and 1 and
    with the trust score its own message gives, counted from 0. *)
Theorem rebinding_recreates_session (st : gmap string Session)
    (sid ch : string) (old : Session) :
  st !! sid = Some old ->
  character old <> ch ->
  let gs := get_session st sid ch in
  gs.2 = new_session ch
  /\ gs.1 !! sid = Some gs.2
  /\ character gs.2 = ch
  /\ get_wrong_count gs.2 = 0
  /\ get_logo_stage gs.2 = 1
  /\ get_trust_score gs.2 = 0
  /\ (forall sid', sid' <> sid -> gs.1 !! sid' = st !! sid')
  /\ (forall CHARACTERS client calls req rid char_cfg,
        accepted CHARACTERS req char_cfg ->
        chat_session_id req = sid ->
        chat_character req = ch ->
        let w := {| session_state := st; llm_calls := calls |} in
        exists s',
          session_state (chat CHARACTERS client w req rid).1 !! sid = Some s'
          /\ character s' = ch
          /\ get_wrong_count s' = 0
          /\ get_logo_stage s' = 1
          /\ get_trust_score s' =
               update_trust_score char_cfg (chat_user_message req) 0).
Proof.
  intros Hold Hne gs.
  assert (Hgs : gs = (<[sid := new_session ch]> st, new_session ch)).
  { subst gs. rewrite get_session_cases, Hold.
    destruct (String.eqb (character old) ch) eqn:Ec; [|reflexivity].
    apply String.eqb_eq in Ec. contradiction. }
  rewrite Hgs. cbn [fst snd].
  split; [reflexivity|]. split; [apply lookup_insert_eq|].
  do 4 (split; [reflexivity|]).
  split.
  { intros sid' Hs. apply lookup_insert_ne. congruence. }
  intros CHARACTERS client calls req rid cfg Hacc Hsid Hch.
  rewrite (chat_accepted _ _ _ _ _ _ Hacc). cbn [fst session_state].
  rewrite Hsid, Hch. fold gs. rewrite Hgs.
  cbn [fst snd]. eexists. split; [apply lookup_insert_eq|].
  repeat split; reflexivity.
Qed.

Lemma rebinding_recreates_session_witness :
  let old := {| character := "maya"; wrong_count := Some 3;
                logo_stage := Some 4; trust_score := Some 60 |} in
  let gs := get_session {[ "s1" := old ]} "s1" "eli" in
  (gs.2 = new_session "eli"
   /\ get_wrong_count gs.2 = 0
   /\ get_logo_stage gs.2 = 1
   /\ get_trust_score gs.2 = 0)
  /\ exists s',
       session_state
         (chat Scenario.catalog None
            {| session_state := {[ "s1" := old ]}; llm_calls := [] |}
            (Scenario.request "eli" "click here") "r1").1 !! "s1" = Some s'
       /\ character s' = "eli"
       /\ get_wrong_count s' = 0
       /\ get_logo_stage s' = 1
       /\ get_trust_score s' = 20.
Proof.
  intros old gs.
  assert (H1 : ({[ "s1" := old ]} : gmap string Session) !! "s1" = Some old).
  { vm_compute. reflexivity. }
  assert (H2 : character old <> "eli").
  { vm_compute. discriminate. }
  assert (H3 : accepted Scenario.catalog (Scenario.request "eli" "click here")
                 Scenario.cfg) by solve_accepted.
  destruct (rebinding_recreates_session {[ "s1" := old ]} "s1" "eli" old H1 H2)
    as (Ha & _ & _ & Hb & Hc & Hd & _ & Hchat).
  split; [repeat split; assumption|].
  exact (Hchat Scenario.catalog None [] (Scenario.request "eli" "click here")
           "r1" Scenario.cfg H3 eq_refl eq_refl).
Defined.

(** ** Trust-score drift *)

Lemma update_trust_score_shift (char_cfg : CharCfg) (msg : string) (t : Z) :
  update_trust_score char_cfg msg t = t + update_trust_score char_cfg msg 0.
Proof.
  unfold update_trust_score.
  destruct (contains_any msg (get_success_keywords _)); [lia|].
  destruct (contains_any msg (get_fail_keywords _)); lia.
Qed.

Section Drift.

Variable CHARACTERS : gmap string CharCfg.
Variable client : option LLM.
Variable req : ChatRequest.
Variable rid : string.
Variable char_cfg : CharCfg.
Hypothesis Hacc : accepted CHARACTERS req char_cfg.

Lemma chat_trust_step (w : World) :
  trust_of (chat CHARACTERS client w req rid).1 (chat_session_id req) =
  carried_trust w (chat_session_id req) (chat_character req)
  + update_trust_score char_cfg (chat_user_message req) 0.
Proof.
  rewrite (trust_of_chat _ _ _ _ _ _ Hacc).
  rewrite get_session_trust. apply update_trust_score_shift.
Qed.

Lemma chat_answered (w : World) :
  answered (chat CHARACTERS client w req rid).2.
Proof.
  rewrite (chat_accepted _ _ _ _ _ _ Hacc). cbn [snd].
  destruct (generate_ai_response _ _ _ _ _ _).1; eexists; reflexivity.
Qed.

(** Once answered, the session is bound to the requested character, so the
    next request for it carries the stored score on. *)
Lemma chat_carries_on (w : World) :
  carried_trust (chat CHARACTERS client w req rid).1
    (chat_session_id req) (chat_character req) =
  trust_of (chat CHARACTERS client w req rid).1 (chat_session_id req).
Proof.
  unfold carried_trust, trust_of.
  rewrite (chat_accepted _ _ _ _ _ _ Hacc). cbn [fst session_state].
  rewrite lookup_insert_eq. cbn [from_option character set_trust_score].
  rewrite get_session_character, String.eqb_refl. reflexivity.
Qed.

Lemma run_chat_repeat (n : nat) (w : World) :
  let r := run_chat CHARACTERS client w (replicate (S n) (req, rid)) in
  Forall answered r.2
  /\ trust_of r.1 (chat_session_id req) =
     carried_trust w (chat_session_id req) (chat_character req)
     + Z.of_nat (S n) * update_trust_score char_cfg (chat_user_message req) 0.
Proof.
  revert w. induction n as [|n IH]; intros w.
  - cbn [replicate run_chat].
    pose proof (chat_trust_step w) as Ht. pose proof (chat_answered w) as Ha.
    destruct (chat CHARACTERS client w req rid) as [w' r']. cbn [fst snd] in *.
    split; [constructor; [exact Ha | constructor] | lia].
  - change (replicate (S (S n)) (req, rid))
      with ((req, rid) :: replicate (S n) (req, rid)).
    cbn [run_chat].
    pose proof (chat_trust_step w) as Ht. pose proof (chat_answered w) as Ha.
    pose proof (chat_carries_on w) as Hc.
    destruct (chat CHARACTERS client w req rid) as [w' r']. cbn [fst snd] in *.
    specialize (IH w'). cbv zeta in IH.
    destruct (run_chat CHARACTERS client w' (replicate (S n) (req, rid)))
      as [final rs]. cbn [fst snd] in *.
    destruct IH as [IHa IHt]. split; [constructor; assumption|].
    rewrite IHt, Hc, Ht. lia.
Qed.

End Drift.

(** C6: the trust score of a session is 0 until a request writes it. An
    accepted request adds to the score it starts from exactly -20 when its
    message holds a success keyword, exactly +20 when it holds a fail
    keyword and no success keyword, and 0 otherwise; for a session already
    bound to the character the score it starts from is the stored one. No
    bound is applied: repeating a request [n + 1] times is answered every
    time and moves the score by [n + 1] such steps, so from a score of at
    most 0 a sequence of Success requests goes below [-20 n], and from a
    score of at least 0 a sequence of Fail requests goes above [20 n]. *)
Theorem trust_score_steps_unbounded (CHARACTERS : gmap string CharCfg)
    (client : option LLM) (req : ChatRequest) (rid : string)
    (char_cfg : CharCfg) :
  accepted CHARACTERS req char_cfg ->
  let sid := chat_session_id req in
  let ch := chat_character req in
  let msg := chat_user_message req in
  let success := contains_any msg (get_success_keywords (rules_of char_cfg)) in
  let fail := contains_any msg (get_fail_keywords (rules_of char_cfg)) in
  let step := if success then -20 else if fail then 20 else 0 in
  get_trust_score (new_session ch) = 0
  /\ (forall w, session_state w !! sid = None -> carried_trust w sid ch = 0)
  /\ (forall w s, session_state w !! sid = Some s -> character s = ch ->
        carried_trust w sid ch = trust_of w sid)
  /\ (forall w,
        answered (chat CHARACTERS client w req rid).2
        /\ trust_of (chat CHARACTERS client w req rid).1 sid =
           carried_trust w sid ch + step)
  /\ (forall w (n : nat),
        let r := run_chat CHARACTERS client w (replicate (S n) (req, rid)) in
        Forall answered r.2
        /\ trust_of r.1 sid = carried_trust w sid ch + Z.of_nat (S n) * step)
  /\ (success = true -> forall w (n : nat), carried_trust w sid ch <= 0 ->
        exists reqs,
          let r := run_chat CHARACTERS client w reqs in
          Forall answered r.2 /\ trust_of r.1 sid < -20 * Z.of_nat n)
  /\ (success = false -> fail = true ->
        forall w (n : nat), 0 <= carried_trust w sid ch ->
        exists reqs,
          let r := run_chat CHARACTERS client w reqs in
          Forall answered r.2 /\ 20 * Z.of_nat n < trust_of r.1 sid).
Proof.
  intros Hacc sid ch msg success fail step.
  assert (Hstep : update_trust_score char_cfg msg 0 = step).
  { unfold update_trust_score. fold success fail. subst step.
    destruct success; [reflexivity|]. destruct fail; reflexivity. }
  split; [reflexivity|].
  split.
  { intros w Hnone. unfold carried_trust. rewrite Hnone. reflexivity. }
  split.
  { intros w s Hs Hc. unfold carried_trust, trust_of. rewrite Hs.
    apply String.eqb_eq in Hc. rewrite Hc. reflexivity. }
  split.
  { intros w. split; [apply (chat_answered _ _ _ _ _ Hacc)|].
    rewrite <- Hstep. apply (chat_trust_step _ _ _ _ _ Hacc). }
  split.
  { intros w n. rewrite <- Hstep.
    apply (run_chat_repeat _ _ _ _ _ Hacc). }
  split.
  - intros Hs w n Hle. exists (replicate (S n) (req, rid)).
    destruct (run_chat_repeat _ client _ rid _ Hacc n w) as [Ha Ht].
    split; [exact Ha|]. fold sid ch msg in Ht. rewrite Ht, Hstep.
    subst step. rewrite Hs. lia.
  - intros Hs Hf w n Hle. exists (replicate (S n) (req, rid)).
    destruct (run_chat_repeat _ client _ rid _ Hacc n w) as [Ha Ht].
    split; [exact Ha|]. fold sid ch msg in Ht. rewrite Ht, Hstep.
    subst step. rewrite Hs, Hf. lia.
Qed.

Lemma trust_score_steps_unbounded_witness :
  trust_of
    (run_chat Scenario.catalog None Scenario.start
       (replicate 3 (Scenario.request "maya" "sorry", "r1"))).1 "s1" = -60
  /\ trust_of
       (run_chat Scenario.catalog None Scenario.start
          (replicate 3 (Scenario.request "maya" "click here", "r1"))).1 "s1"
     = 60.
Proof.
  assert (H1 : accepted Scenario.catalog (Scenario.request "maya" "sorry")
                 Scenario.cfg) by solve_accepted.
  assert (H2 : accepted Scenario.catalog
                 (Scenario.request "maya" "click here") Scenario.cfg)
    by solve_accepted.
  split.
  - destruct (trust_score_steps_unbounded Scenario.catalog None
                (Scenario.request "maya" "sorry") "r1" Scenario.cfg H1)
      as (_ & _ & _ & _ & Hrun & _).
    destruct (Hrun Scenario.start 2%nat) as [_ Ht]. exact Ht.
  - destruct (trust_score_steps_unbounded Scenario.catalog None
                (Scenario.request "maya" "click here") "r1" Scenario.cfg H2)
      as (_ & _ & _ & _ & Hrun & _).
    destruct (Hrun Scenario.start 2%nat) as [_ Ht]. exact Ht.
Defined.

(** ** The generation orchestrator *)

Lemma contains_either (a b t : string) :
  Py.contains a t || Py.contains b t = true <-> occurs_in a t \/ occurs_in b t.
Proof. rewrite orb_true_iff, !contains_occurs. reflexivity. Qed.

Lemma contains_neither (a b t : string) :
  Py.contains a t || Py.contains b t = false <->
  ~ (occurs_in a t \/ occurs_in b t).
Proof.
  rewrite <- contains_either. destruct (Py.contains a t || Py.contains b t).
  - split; [discriminate | intros H; exfalso; apply H; reflexivity].
  - split; [intros _; discriminate | reflexivity].
Qed.

Lemma rate_limit_fallback_maya (msg : string) :
  get_rate_limit_fallback "maya" msg =
  "â³ Maya here - I'm getting a lot of messages right now. Give me a moment to process your message about '"
  +:+ Py.slice_to 30 msg +:+ "...' and I'll respond thoughtfully.".
Proof. unfold get_rate_limit_fallback. rewrite lookup_insert_eq. reflexivity. Qed.

Lemma connection_fallback_maya (msg : string) :
  get_connection_fallback "maya" msg =
  "ğŸ”„ Maya here - I'm having some connection issues, but I caught your message about '"
  +:+ Py.slice_to 30 msg +:+ "...' Let me give you a quick response while I reconnect.".
Proof. unfold get_connection_fallback. rewrite lookup_insert_eq. reflexivity. Qed.

(** Two strings that start with different characters differ. *)
Lemma first_char_differs (c d : ascii) (s t : string) :
  c <> d -> String c s <> String d t.
Proof. intros Hne H. injection H as Hc _. contradiction. Qed.

Lemma rate_limit_reply_maya (msg : string) :
  occurs_in (Py.slice_to 30 msg) (get_rate_limit_fallback "maya" msg)
  /\ get_rate_limit_fallback "maya" msg <> get_connection_fallback "maya" msg.
Proof.
  rewrite rate_limit_fallback_maya, connection_fallback_maya. split.
  - eexists _, _. reflexivity.
  - apply first_char_differs. discriminate.
Qed.

(** C9: when the request to the hosted model raises, the description of the
    failure is lower-cased and searched for fixed substrings in a fixed
    order: "rate limit" or "429" selects the rate-limit reply, whatever else
    the text holds; failing that, "timeout" or "connection" selects the
    connection reply; failing that, "invalid" or "400" selects the
    invalid-request reply; failing all, the generic reply is used. The
    rate-limit reply for the character "maya" holds the first 30 characters
    of the user's message and is never the connection reply for the same
    message. *)
Theorem failure_classified_in_order (complete : LLM)
    (ch msg sp rid : string) (calls : list (string * string)) (e : string) :
  complete (length calls) sp msg = inr e ->
  let err := Py.lower e in
  let reply := (generate_ai_response (Some complete) ch msg sp rid calls).1 in
  let rate := occurs_in "rate limit" err \/ occurs_in "429" err in
  let conn := occurs_in "timeout" err \/ occurs_in "connection" err in
  let inval := occurs_in "invalid" err \/ occurs_in "400" err in
  (rate -> reply = Some (get_rate_limit_fallback ch msg))
  /\ (~ rate -> conn -> reply = Some (get_connection_fallback ch msg))
  /\ (~ rate -> ~ conn -> inval ->
      reply = Some (get_invalid_request_fallback ch msg))
  /\ (~ rate -> ~ conn -> ~ inval ->
      reply = Some (get_generic_ai_fallback ch msg))
  /\ occurs_in (Py.slice_to 30 msg) (get_rate_limit_fallback "maya" msg)
  /\ get_rate_limit_fallback "maya" msg <> get_connection_fallback "maya" msg.
Proof.
  intros He err reply rate conn inval. subst reply rate conn inval.
  assert (Hmaya : occurs_in (Py.slice_to 30 msg)
                    (get_rate_limit_fallback "maya" msg)
                  /\ get_rate_limit_fallback "maya" msg
                     <> get_connection_fallback "maya" msg)
    by apply rate_limit_reply_maya.
  unfold generate_ai_response. rewrite He. fold err.
  destruct (Py.contains "rate limit" err || Py.contains "429" err) eqn:Er;
    [apply contains_either in Er | apply contains_neither in Er].
  { cbn [fst]. tauto. }
  destruct (Py.contains "timeout" err || Py.contains "connection" err) eqn:Ec;
    [apply contains_either in Ec | apply contains_neither in Ec].
  { cbn [fst]. tauto. }
  destruct (Py.contains "invalid" err || Py.contains "400" err) eqn:Ei;
    [apply contains_either in Ei | apply contains_neither in Ei];
    cbn [fst]; tauto.
Qed.

Lemma failure_classified_in_order_witness :
  (generate_ai_response
     (Some (Scenario.failing "Connection error: 429 Rate limit reached"))
     "maya" "please click here to claim your prize now" "prompt" "r1" []).1
  = Some (get_rate_limit_fallback "maya"
            "please click here to claim your prize now").
Proof.
  apply (failure_classified_in_order
           (Scenario.failing "Connection error: 429 Rate limit reached")
           "maya" "please click here to claim your prize now" "prompt" "r1" []
           "Connection error: 429 Rate limit reached").
  - reflexivity.
  - left. exists "connection error: 429 ", " reached". reflexivity.
Defined.

(** C10, as the specification words it, does not hold: the result of a
    generation request carries no flag that is set for demo-mode replies and
    clear for live ones. The result is the reply text alone: the text
    returned without a client for "maya" and "hello" is also the text a live
    model may return for the same request; and the object the chat endpoint
    answers with in demo mode has no entry for such a flag. *)
Lemma demo_reply_carries_no_flag :
  (generate_ai_response None "maya" "hello" "prompt" "r1" []).1
  = (generate_ai_response
       (Some (Scenario.answering (get_demo_mode_response "maya" "hello")))
       "maya" "hello" "prompt" "r1" []).1
  /\ (~ exists usedFallback : option string -> bool,
        (forall ch msg sp rid calls,
           usedFallback (generate_ai_response None ch msg sp rid calls).1
           = true)
        /\ (forall complete ch msg sp rid calls reply,
              complete (length calls) sp msg = inl (Some reply) ->
              usedFallback
                (generate_ai_response (Some complete) ch msg sp rid calls).1
              = false))
  /\ exists resp,
       (chat Scenario.catalog None Scenario.start
          (Scenario.request "maya" "hello") "r1").2 = inr resp
       /\ resp !! "reply" = Some (JStr (get_demo_mode_response "maya" "hello"))
       /\ dom resp = ({[ "reply"; "trust_score"; "persona"; "request_id" ]}
                      : gset string).
Proof.
  split; [reflexivity|]. split.
  - intros [flag [Hdemo Hlive]].
    pose proof (Hdemo "maya" "hello" "prompt" "r1" []) as H1.
    pose proof (Hlive
                  (Scenario.answering (get_demo_mode_response "maya" "hello"))
                  "maya" "hello" "prompt" "r1" [] _ eq_refl) as H2.
    cbn [generate_ai_response Scenario.answering fst] in H1, H2.
    congruence.
  - eexists. split; [vm_compute; reflexivity|].
    split; vm_compute; reflexivity.
Qed.

Lemma demo_mode_response_cases (ch msg : string) :
  get_demo_mode_response ch msg =
  if String.eqb ch "maya" then
    "ğŸ‘‹ Hi! I'm Maya. I received your message: '" +:+ Py.slice_to 50 msg
    +:+ "...' This is demo mode - add your OpenAI API key for full AI responses."
  else if String.eqb ch "eli" then
    "ğŸ‘‹ Hey! Eli here. Got your message: '" +:+ Py.slice_to 50 msg
    +:+ "...' Running in demo mode - need OpenAI API key for smart responses."
  else if String.eqb ch "stanley" then
    "ğŸ‘‹ Hello! Stanley speaking. About your message: '" +:+ Py.slice_to 50 msg
    +:+ "...' This is demo mode - please configure OpenAI API key."
  else "ğŸ‘‹ Demo mode - please configure OpenAI API key for full functionality.".
Proof.
  unfold get_demo_mode_response.
  destruct (String.eqb_spec ch "maya") as [->|Hm].
  { rewrite lookup_insert_eq. reflexivity. }
  rewrite lookup_insert_ne by congruence.
  destruct (String.eqb_spec ch "eli") as [->|He].
  { rewrite lookup_insert_eq. reflexivity. }
  rewrite lookup_insert_ne by congruence.
  destruct (String.eqb_spec ch "stanley") as [->|Hs].
  { rewrite lookup_singleton_eq. reflexivity. }
  rewrite lookup_singleton_ne by congruence. reflexivity.
Qed.

(** C10, amended: when no client is configured, a generation request sends
    nothing to the hosted model (the log of requests is unchanged) and
    returns the demo-mode text of the character: a text of its own for
    "maya", "eli" and "stanley", each holding the first 50 characters of the
    message, and one fixed text for every other character. The result is the
    reply text only, the same a live model may return, and an accepted chat
    request in demo mode is answered with that text under ["reply"], with no
    entry besides ["reply"], ["trust_score"], ["persona"] and
    ["request_id"]. *)
Theorem demo_mode_reply (ch msg sp rid : string)
    (calls : list (string * string)) :
  generate_ai_response None ch msg sp rid calls =
    (Some (get_demo_mode_response ch msg), calls)
  /\ occurs_in (Py.slice_to 50 msg) (get_demo_mode_response "maya" msg)
  /\ occurs_in (Py.slice_to 50 msg) (get_demo_mode_response "eli" msg)
  /\ occurs_in (Py.slice_to 50 msg) (get_demo_mode_response "stanley" msg)
  /\ (ch <> "maya" -> ch <> "eli" -> ch <> "stanley" ->
      get_demo_mode_response ch msg =
      "ğŸ‘‹ Demo mode - please configure OpenAI API key for full functionality.")
  /\ (generate_ai_response
        (Some (fun _ _ _ => inl (Some (get_demo_mode_response ch msg))))
        ch msg sp rid calls).1
     = (generate_ai_response None ch msg sp rid calls).1
  /\ (forall CHARACTERS w req char_cfg,
        accepted CHARACTERS req char_cfg ->
        chat_character req = ch ->
        chat_user_message req = msg ->
        let r := chat CHARACTERS None w req rid in
        llm_calls r.1 = llm_calls w
        /\ exists resp,
             r.2 = inr resp
             /\ resp !! "reply" = Some (JStr (get_demo_mode_response ch msg))
             /\ dom resp =
                ({[ "reply"; "trust_score"; "persona"; "request_id" ]}
                 : gset string)).
Proof.
  split; [reflexivity|].
  split; [rewrite demo_mode_response_cases; eexists _, _; reflexivity|].
  split; [rewrite demo_mode_response_cases; eexists _, _; reflexivity|].
  split; [rewrite demo_mode_response_cases; eexists _, _; reflexivity|].
  split.
  { intros Hm He Hs. rewrite demo_mode_response_cases.
    apply String.eqb_neq in Hm, He, Hs. rewrite Hm, He, Hs. reflexivity. }
  split; [reflexivity|].
  intros CHARACTERS w req cfg Hacc Hch Hmsg r. subst r.
  rewrite (chat_accepted _ _ _ _ _ _ Hacc). cbn [fst snd llm_calls].
  rewrite Hch, Hmsg. cbn [generate_ai_response fst snd].
  split; [reflexivity|]. eexists. split; [reflexivity|].
  split; [apply lookup_insert_eq|].
  rewrite !dom_insert_L, dom_singleton_L. set_solver.
Qed.

Lemma demo_mode_reply_witness :
  let r := chat Scenario.catalog None Scenario.start
             (Scenario.request "Maya" " hello ") "r1" in
  llm_calls r.1 = []
  /\ exists resp,
       r.2 = inr resp
       /\ resp !! "reply" = Some (JStr (get_demo_mode_response "maya" "hello")).
Proof.
  assert (H : accepted Scenario.catalog (Scenario.request "Maya" " hello ")
                Scenario.cfg) by solve_accepted.
  destruct (demo_mode_reply "maya" "hello" "prompt" "r1" [])
    as (_ & _ & _ & _ & _ & _ & Hchat).
  destruct (Hchat Scenario.catalog Scenario.start
              (Scenario.request "Maya" " hello ") Scenario.cfg H
              eq_refl eq_refl) as (Hcalls & resp & Hr & Hreply & _).
  split; [exact Hcalls|]. exists resp. split; assumption.
Defined.

(** * Further properties of the module *)

(** ** Case folding and substrings *)

Lemma lower_char_idem (c : ascii) :
  Py.lower_char (Py.lower_char c) = Py.lower_char c.
Proof. destruct c as [[] [] [] [] [] [] [] []]; reflexivity. Qed.

Lemma lower_idem (s : string) : Py.lower (Py.lower s) = Py.lower s.
Proof.
  induction s as [|c s IH]; [reflexivity|].
  cbn [Py.lower]. rewrite lower_char_idem, IH. reflexivity.
Qed.

Lemma is_ascii_app (s t : string) :
  Py.is_ascii (s +:+ t) = Py.is_ascii s && Py.is_ascii t.
Proof.
  induction s as [|c s IH]; [reflexivity|].
  rewrite append_cons. cbn [Py.is_ascii]. rewrite IH, andb_assoc. reflexivity.
Qed.

(** On ASCII texts [str.lower()] folds character by character, whatever
    comes before and after, so it distributes over concatenation. *)
Lemma lower_app (s t : string) :
  Py.is_ascii s = true -> Py.is_ascii t = true ->
  Py.lower (s +:+ t) = Py.lower s +:+ Py.lower t.
Proof.
  intros _ _. induction s as [|c s IH]; [reflexivity|].
  rewrite append_cons. cbn [Py.lower]. rewrite append_cons, IH. reflexivity.
Qed.

Lemma append_assoc (s t u : string) : (s +:+ t) +:+ u = s +:+ t +:+ u.
Proof.
  induction s as [|c s IH]; [reflexivity|].
  rewrite !append_cons, IH. reflexivity.
Qed.

Lemma occurs_in_empty (t : string) : occurs_in EmptyString t.
Proof. exists EmptyString, t. reflexivity. Qed.

Lemma occurs_in_context (k t before after : string) :
  occurs_in k t -> occurs_in k (before +:+ t +:+ after).
Proof.
  intros [pre [post ->]]. exists (before +:+ pre), (post +:+ after).
  rewrite !append_assoc. reflexivity.
Qed.

(** ** Keyword matching *)

(** X1: [contains_any] is true exactly when the lower-cased text can be cut into
    three parts whose middle one is a lower-cased keyword of the list; with
    no keyword it is false. *)
Theorem contains_any_iff_keyword_occurs (text : string)
    (keywords : list string) :
  (contains_any text keywords = true <->
   exists k pre post,
     k ∈ keywords /\ Py.lower text = pre +:+ Py.lower k +:+ post)
  /\ contains_any text [] = false.
Proof.
  split; [|reflexivity]. rewrite contains_any_spec. split.
  - intros (k & Hin & pre & post & H). exists k, pre, post. split; assumption.
  - intros (k & pre & post & Hin & H). exists k. split; [exact Hin|].
    exists pre, post. exact H.
Qed.

(** X2: an empty keyword matches every text: a list that holds [""] makes
    [contains_any] true whatever the text, so a character with [""] among
    its success keywords has every message classified Success. *)
Theorem empty_keyword_matches_everything (keywords : list string)
    (char_cfg : CharCfg) :
  (EmptyString ∈ keywords -> forall text, contains_any text keywords = true)
  /\ (EmptyString ∈ get_success_keywords (rules_of char_cfg) ->
      forall s msg fb t,
        (decide_outcome_and_update s char_cfg msg fb).2 = "success"
        /\ update_trust_score char_cfg msg t = t - 20).
Proof.
  assert (H : forall kws, EmptyString ∈ kws ->
                forall text, contains_any text kws = true).
  { intros kws Hin text. apply contains_any_spec. exists EmptyString.
    split; [exact Hin | apply occurs_in_empty]. }
  split; [apply H|].
  intros Hin s msg fb t. specialize (H _ Hin msg). split.
  - rewrite (decide_success _ _ _ _ H). reflexivity.
  - unfold update_trust_score. rewrite H. reflexivity.
Qed.

Lemma empty_keyword_matches_everything_witness :
  contains_any "anything at all" ["sorry"; ""] = true.
Proof.
  apply (proj1 (empty_keyword_matches_everything ["sorry"; ""] Scenario.cfg)).
  apply list_elem_of_In. simpl. right. left. reflexivity.
Defined.

(** X3: matching ignores case on both sides: a text and its lower-cased form
    match the same keyword lists, a keyword list and its lower-cased form
    match the same texts, and two texts that differ in case only match the
    same lists. *)
Theorem contains_any_ignores_case (t1 t2 : string) (keywords : list string) :
  contains_any (Py.lower t1) keywords = contains_any t1 keywords
  /\ contains_any t1 (map Py.lower keywords) = contains_any t1 keywords
  /\ (Py.lower t1 = Py.lower t2 ->
      contains_any t1 keywords = contains_any t2 keywords).
Proof.
  unfold contains_any. split; [|split].
  - rewrite lower_idem. reflexivity.
  - induction keywords as [|k kws IH]; [reflexivity|].
    cbn [map existsb]. rewrite lower_idem, IH. reflexivity.
  - intros ->. reflexivity.
Qed.

Lemma contains_any_ignores_case_witness :
  contains_any "CLICK Here" ["click here"] = contains_any "click here" ["click here"].
Proof.
  apply (proj2 (proj2 (contains_any_ignores_case "CLICK Here" "click here"
                         ["click here"]))).
  reflexivity.
Defined.

(** X4: matching is by substring, with no word boundaries: an ASCII text
    that matches still matches with any ASCII text written before and after
    it; and a text matches the concatenation of two lists exactly when it
    matches one of them. *)
Theorem contains_any_survives_context (text before after : string)
    (kws1 kws2 : list string) :
  (Py.is_ascii before = true -> Py.is_ascii text = true ->
   Py.is_ascii after = true ->
   contains_any text kws1 = true ->
   contains_any (before +:+ text +:+ after) kws1 = true)
  /\ contains_any text (kws1 ++ kws2) =
     contains_any text kws1 || contains_any text kws2.
Proof.
  split.
  - intros Hb Ht Ha. rewrite !contains_any_spec. intros (k & Hin & Hocc).
    exists k. split; [exact Hin|].
    assert (Hta : Py.is_ascii (text +:+ after) = true)
      by (rewrite is_ascii_app, Ht, Ha; reflexivity).
    rewrite (lower_app _ _ Hb Hta), (lower_app _ _ Ht Ha).
    apply occurs_in_context, Hocc.
  - unfold contains_any. apply existsb_app.
Qed.

Lemma contains_any_survives_context_witness :
  contains_any ("I am not " +:+ "sorry" +:+ " at all") ["sorry"] = true.
Proof.
  apply (proj1 (contains_any_survives_context "sorry" "I am not " " at all"
                  ["sorry"] [])); reflexivity.
Defined.

(** ** The outcome engine, call by call *)

(** X5: the engine writes the two counters only: the character a session is
    bound to and its stored trust score are never changed, and a message
    without keywords that was answered by the live model leaves the session
    exactly as it was. *)
Theorem engine_frame (s : Session) (char_cfg : CharCfg) (msg : string)
    (fb : bool) :
  let d := decide_outcome_and_update s char_cfg msg fb in
  character d.1 = character s
  /\ trust_score d.1 = trust_score s
  /\ (contains_any msg (get_success_keywords (rules_of char_cfg)) = false ->
      contains_any msg (get_fail_keywords (rules_of char_cfg)) = false ->
      fb = false -> d = (s, "neutral")).
Proof.
  unfold decide_outcome_and_update.
  destruct (contains_any msg (get_success_keywords _)).
  { cbn. repeat split; discriminate. }
  destruct (contains_any msg (get_fail_keywords _)).
  { destruct (_ <=? _); cbn; repeat split; discriminate. }
  destruct fb; [|cbn; repeat split; reflexivity].
  destruct (get_warn_after _ <=? _); destruct (get_fail_after _ <=? _);
    cbn; repeat split; discriminate.
Qed.

Lemma engine_frame_witness :
  decide_outcome_and_update (new_session "maya") Scenario.cfg
    "what do you mean?" false
  = (new_session "maya", "neutral").
Proof.
  apply (proj2 (proj2 (engine_frame (new_session "maya") Scenario.cfg
                         "what do you mean?" false)));
    reflexivity.
Defined.

(** X6: the label returned is one of the three, it is ["success"] exactly when
    a success keyword matches, and it is ["fail"] exactly when no success
    keyword matches, a fail keyword matches or the reply was a fallback, and
    the wrong count just written has reached [fail_after]. *)
Theorem engine_label (s : Session) (char_cfg : CharCfg) (msg : string)
    (fb : bool) :
  let d := decide_outcome_and_update s char_cfg msg fb in
  let success := contains_any msg (get_success_keywords (rules_of char_cfg)) in
  let fail := contains_any msg (get_fail_keywords (rules_of char_cfg)) in
  (d.2 = "success" \/ d.2 = "fail" \/ d.2 = "neutral")
  /\ (d.2 = "success" <-> success = true)
  /\ (d.2 = "fail" <->
      success = false /\ (fail = true \/ fb = true)
      /\ get_fail_after (thresholds_of char_cfg) <= get_wrong_count d.1).
Proof.
  unfold decide_outcome_and_update.
  destruct (contains_any msg (get_success_keywords _)).
  { cbn. split; [tauto|]. split; [tauto|].
    split; [discriminate | intros [H _]; discriminate]. }
  destruct (contains_any msg (get_fail_keywords _)).
  { destruct (_ <=? _) eqn:E;
      [apply Z.leb_le in E | apply Z.leb_gt in E];
      cbn [fst snd]; (split; [tauto|]); (split; [split; discriminate|]).
    - split; [intros _|reflexivity]. split; [reflexivity|]. split; [tauto|].
      exact E.
    - split; [discriminate|]. intros (_ & _ & H). lia. }
  destruct fb.
  - destruct (get_fail_after _ <=? _) eqn:E;
      [apply Z.leb_le in E | apply Z.leb_gt in E];
      cbn [fst snd]; (split; [tauto|]); (split; [split; discriminate|]).
    + split; [intros _|reflexivity]. split; [reflexivity|]. split; [tauto|].
      exact E.
    + split; [discriminate|]. intros (_ & _ & H). lia.
  - cbn [fst snd]. split; [tauto|]. split; [split; discriminate|].
    split; [discriminate|]. intros (_ & [H|H] & _); discriminate.
Qed.

(** X7: on a session whose counters are within their bounds, one call moves the
    wrong count by at most one in either direction, and either resets the
    stage to 1 or leaves it or raises it by one. *)
Theorem engine_moves_one_step (s : Session) (char_cfg : CharCfg)
    (msg : string) (fb : bool) :
  counters_ok s ->
  let s' := (decide_outcome_and_update s char_cfg msg fb).1 in
  get_wrong_count s - 1 <= get_wrong_count s' <= get_wrong_count s + 1
  /\ (get_logo_stage s' = 1
      \/ get_logo_stage s <= get_logo_stage s' <= get_logo_stage s + 1).
Proof.
  unfold counters_ok, decide_outcome_and_update. intros [Hw [Hl Hu]].
  destruct (contains_any msg (get_success_keywords _)).
  { cbn. lia. }
  destruct (contains_any msg (get_fail_keywords _)).
  { destruct (_ <=? _); cbn; fold (get_wrong_count s) (get_logo_stage s); lia. }
  destruct fb; [|cbn; lia].
  destruct (get_warn_after _ <=? _); destruct (get_fail_after _ <=? _);
    cbn; fold (get_wrong_count s) (get_logo_stage s); lia.
Qed.

Lemma engine_moves_one_step_witness :
  let s' := (decide_outcome_and_update (new_session "maya") Scenario.cfg
               "click here" false).1 in
  get_wrong_count (new_session "maya") - 1 <= get_wrong_count s'
    <= get_wrong_count (new_session "maya") + 1
  /\ (get_logo_stage s' = 1
      \/ get_logo_stage (new_session "maya") <= get_logo_stage s'
         <= get_logo_stage (new_session "maya") + 1).
Proof.
  apply (engine_moves_one_step (new_session "maya") Scenario.cfg
           "click here" false).
  unfold counters_ok. vm_compute. repeat split; discriminate.
Defined.

(** ** The outcome engine over runs *)

Lemma decide_stage_behind (s : Session) (char_cfg : CharCfg) (msg : string)
    (fb : bool) (n : Z) :
  0 <= n ->
  get_logo_stage s <= get_wrong_count s + 1 -> get_wrong_count s <= n ->
  let s' := (decide_outcome_and_update s char_cfg msg fb).1 in
  get_logo_stage s' <= get_wrong_count s' + 1 /\ get_wrong_count s' <= n + 1.
Proof.
  unfold decide_outcome_and_update. intros Hn Hl Hw.
  destruct (contains_any msg (get_success_keywords _)).
  { cbn. lia. }
  destruct (contains_any msg (get_fail_keywords _)).
  { destruct (_ <=? _); cbn; fold (get_wrong_count s) (get_logo_stage s); lia. }
  destruct fb; [|cbn; lia].
  destruct (get_warn_after _ <=? _); destruct (get_fail_after _ <=? _);
    cbn; fold (get_wrong_count s) (get_logo_stage s); lia.
Qed.

Lemma run_engine_stage_behind (inputs : list (CharCfg * string * bool))
    (s : Session) (n : Z) :
  0 <= n ->
  get_logo_stage s <= get_wrong_count s + 1 -> get_wrong_count s <= n ->
  let f := (run_engine s inputs).1 in
  get_logo_stage f <= get_wrong_count f + 1
  /\ get_wrong_count f <= n + Z.of_nat (length inputs).
Proof.
  revert s n. induction inputs as [|[[cfg msg] fb] rest IH]; intros s n Hn Hl Hw.
  - cbn. lia.
  - cbn [run_engine length].
    pose proof (decide_stage_behind s cfg msg fb n Hn Hl Hw) as [Hl' Hw'].
    destruct (decide_outcome_and_update s cfg msg fb) as [s' o].
    cbn [fst] in Hl', Hw'.
    assert (Hn' : 0 <= n + 1) by lia.
    specialize (IH s' (n + 1) Hn' Hl' Hw'). cbv zeta in IH.
    destruct (run_engine s' rest) as [final os]. cbn [fst] in *. lia.
Qed.

Lemma decide_fail_wrong_count (s : Session) (char_cfg : CharCfg)
    (msg : string) (fb : bool) :
  (decide_outcome_and_update s char_cfg msg fb).2 = "fail" ->
  get_fail_after (thresholds_of char_cfg) <= get_wrong_count s + 1.
Proof.
  unfold decide_outcome_and_update.
  destruct (contains_any msg (get_success_keywords _)); [discriminate|].
  destruct (contains_any msg (get_fail_keywords _)).
  { destruct (_ <=? _) eqn:E; [|discriminate]. intros _.
    apply Z.leb_le in E. exact E. }
  destruct fb; [|discriminate].
  destruct (get_fail_after _ <=? _) eqn:E; [|discriminate]. intros _.
  apply Z.leb_le in E.
  destruct (get_warn_after _ <=? _); exact E.
Qed.

(** X8: on a session created by [get_session] and driven by the engine alone,
    the escalation stage never runs ahead of the wrong count by more than
    one, and the wrong count never exceeds the number of calls made; so a
    call can return ["fail"] only if, counting it, at least [fail_after]
    calls have been made. *)
Theorem engine_stage_never_ahead (ch : string)
    (inputs : list (CharCfg * string * bool)) :
  let s := (run_engine (new_session ch) inputs).1 in
  get_logo_stage s <= get_wrong_count s + 1
  /\ get_wrong_count s <= Z.of_nat (length inputs)
  /\ forall char_cfg msg fb,
       (decide_outcome_and_update s char_cfg msg fb).2 = "fail" ->
       get_fail_after (thresholds_of char_cfg) <= Z.of_nat (length inputs) + 1.
Proof.
  intros s.
  destruct (run_engine_stage_behind inputs (new_session ch) 0)
    as [Hl Hw]; [lia | cbn; lia | cbn; lia |].
  fold s in Hl, Hw. split; [exact Hl|]. split; [lia|].
  intros cfg msg fb Hfail. apply decide_fail_wrong_count in Hfail. lia.
Qed.

Lemma engine_stage_never_ahead_witness :
  get_fail_after (thresholds_of Scenario.cfg)
  <= Z.of_nat (length (replicate 3 (Scenario.cfg, "click here", false))) + 1.
Proof.
  apply (proj2 (proj2 (engine_stage_never_ahead "maya"
           (replicate 3 (Scenario.cfg, "click here", false))))
           Scenario.cfg "click here" false).
  vm_compute. reflexivity.
Defined.

Lemma repeat_engine_S (s : Session) (char_cfg : CharCfg) (msg : string)
    (fb : bool) (n : nat) :
  repeat_engine s char_cfg msg fb (S n) =
  let d := decide_outcome_and_update s char_cfg msg fb in
  let r := repeat_engine d.1 char_cfg msg fb n in
  (r.1, d.2 :: r.2).
Proof.
  unfold repeat_engine. cbn [replicate run_engine].
  destruct (decide_outcome_and_update s char_cfg msg fb) as [s' o].
  cbn [fst snd]. destruct (run_engine s' _) as [final os]. reflexivity.
Qed.

(** X9: [n] messages in a row that hold a fail keyword and no success keyword
    add [n] to the wrong count and [n] to the stage, the stage stopping at
    5; the label of the [i]-th of them is ["fail"] when the wrong count,
    then [wrong_count + i], has reached [fail_after], and ["neutral"]
    before. The fallback flag plays no part. *)
Theorem fail_keyword_run (char_cfg : CharCfg) (msg : string) (fb : bool)
    (n : nat) (s : Session) :
  contains_any msg (get_success_keywords (rules_of char_cfg)) = false ->
  contains_any msg (get_fail_keywords (rules_of char_cfg)) = true ->
  get_logo_stage s <= 5 ->
  let r := repeat_engine s char_cfg msg fb n in
  get_wrong_count r.1 = get_wrong_count s + Z.of_nat n
  /\ get_logo_stage r.1 = Z.min 5 (get_logo_stage s + Z.of_nat n)
  /\ forall i : nat, (i < n)%nat ->
       r.2 !! i =
       Some (if get_fail_after (thresholds_of char_cfg)
                  <=? get_wrong_count s + Z.of_nat (S i)
             then "fail" else "neutral").
Proof.
  intros Hs Hf. revert s. induction n as [|n IH]; intros s Hl.
  - cbn. split; [lia|]. split; [lia|]. intros i Hi. lia.
  - rewrite repeat_engine_S.
    assert (Hd : decide_outcome_and_update s char_cfg msg fb =
              (set_logo_stage (Z.min 5 (get_logo_stage s + 1))
                 (set_wrong_count (get_wrong_count s + 1) s),
               if get_fail_after (thresholds_of char_cfg)
                    <=? get_wrong_count s + 1
               then "fail" else "neutral")).
    { unfold decide_outcome_and_update. rewrite Hs, Hf. cbn.
      fold (get_wrong_count s) (get_logo_stage s).
      destruct (_ <=? _); reflexivity. }
    rewrite Hd. cbn [fst snd].
    set (s1 := set_logo_stage _ _).
    assert (Hw1 : get_wrong_count s1 = get_wrong_count s + 1) by reflexivity.
    assert (Hl1 : get_logo_stage s1 = Z.min 5 (get_logo_stage s + 1))
      by reflexivity.
    destruct (IH s1) as (IHw & IHl & IHo); [lia|].
    split; [lia|]. split; [lia|].
    intros [|i] Hi.
    + reflexivity.
    + rewrite lookup_cons.
      rewrite (IHo i) by lia. rewrite Hw1.
      replace (get_wrong_count s + 1 + Z.of_nat (S i))
        with (get_wrong_count s + Z.of_nat (S (S i))) by lia.
      reflexivity.
Qed.

Lemma fail_keyword_run_witness :
  let r := repeat_engine (new_session "maya") Scenario.cfg "Click here!"
             true 7 in
  get_wrong_count r.1 = 7 /\ get_logo_stage r.1 = 5
  /\ r.2 !! 2%nat = Some "neutral" /\ r.2 !! 3%nat = Some "fail".
Proof.
  destruct (fail_keyword_run Scenario.cfg "Click here!" true 7
              (new_session "maya")) as (Hw & Hl & Ho).
  - vm_compute. reflexivity.
  - vm_compute. reflexivity.
  - vm_compute. discriminate.
  - split; [exact Hw|]. split; [exact Hl|].
    split; [apply (Ho 2%nat) | apply (Ho 3%nat)]; lia.
Defined.

(** X10: [n] fallback replies in a row to a message that holds no keyword add
    [n] to the wrong count; the stage rises by one for each of them that
    finds the wrong count, once incremented, at [warn_after] or above, and
    stops at 5. The label of the [i]-th is ["fail"] when the wrong count,
    then [wrong_count + i], has reached [fail_after]. *)
Theorem fallback_run (char_cfg : CharCfg) (msg : string) (n : nat)
    (s : Session) :
  contains_any msg (get_success_keywords (rules_of char_cfg)) = false ->
  contains_any msg (get_fail_keywords (rules_of char_cfg)) = false ->
  get_logo_stage s <= 5 ->
  let r := repeat_engine s char_cfg msg true n in
  let warn := get_warn_after (thresholds_of char_cfg) in
  get_wrong_count r.1 = get_wrong_count s + Z.of_nat n
  /\ get_logo_stage r.1 =
     Z.min 5 (get_logo_stage s
              + Z.max 0 (Z.min (Z.of_nat n)
                           (get_wrong_count s + Z.of_nat n - warn + 1)))
  /\ forall i : nat, (i < n)%nat ->
       r.2 !! i =
       Some (if get_fail_after (thresholds_of char_cfg)
                  <=? get_wrong_count s + Z.of_nat (S i)
             then "fail" else "neutral").
Proof.
  intros Hs Hf. revert s. induction n as [|n IH]; intros s Hl.
  - cbn. split; [lia|]. split; [lia|]. intros i Hi. lia.
  - rewrite repeat_engine_S.
    set (warn := get_warn_after (thresholds_of char_cfg)).
    assert (Hd : decide_outcome_and_update s char_cfg msg true =
              ((if warn <=? get_wrong_count s + 1
                then set_logo_stage (Z.min 5 (get_logo_stage s + 1))
                       (set_wrong_count (get_wrong_count s + 1) s)
                else set_wrong_count (get_wrong_count s + 1) s),
               if get_fail_after (thresholds_of char_cfg)
                    <=? get_wrong_count s + 1
               then "fail" else "neutral")).
    { unfold decide_outcome_and_update. rewrite Hs, Hf. cbn.
      fold (get_wrong_count s) (get_logo_stage s). fold warn.
      destruct (warn <=? _); destruct (get_fail_after _ <=? _); reflexivity. }
    rewrite Hd. cbn [fst snd].
    set (s1 := if warn <=? _ then _ else _).
    assert (Hw1 : get_wrong_count s1 = get_wrong_count s + 1).
    { subst s1. destruct (warn <=? _); reflexivity. }
    assert (Hl1 : get_logo_stage s1 =
                  if warn <=? get_wrong_count s + 1
                  then Z.min 5 (get_logo_stage s + 1) else get_logo_stage s).
    { subst s1. destruct (warn <=? _); reflexivity. }
    destruct (IH s1) as (IHw & IHl & IHo).
    { rewrite Hl1. destruct (warn <=? _); lia. }
    fold warn in IHl. split; [lia|]. split.
    + rewrite IHl, Hl1, Hw1.
      destruct (warn <=? get_wrong_count s + 1) eqn:E;
        [apply Z.leb_le in E | apply Z.leb_gt in E]; lia.
    + intros [|i] Hi; [reflexivity|].
      rewrite lookup_cons. rewrite (IHo i) by lia. rewrite Hw1.
      replace (get_wrong_count s + 1 + Z.of_nat (S i))
        with (get_wrong_count s + Z.of_nat (S (S i))) by lia.
      reflexivity.
Qed.

Lemma fallback_run_witness :
  let r := repeat_engine (new_session "maya") Scenario.cfg "what is this?"
             true 4 in
  get_wrong_count r.1 = 4 /\ get_logo_stage r.1 = 4
  /\ r.2 !! 3%nat = Some "fail".
Proof.
  destruct (fallback_run Scenario.cfg "what is this?" 4 (new_session "maya"))
    as (Hw & Hl & Ho).
  - vm_compute. reflexivity.
  - vm_compute. reflexivity.
  - vm_compute. discriminate.
  - split; [exact Hw|]. split; [exact Hl|]. apply (Ho 3%nat). lia.
Defined.

(** X11: [n] messages in a row that hold a success keyword take [n] off the
    wrong count, stopping at 0, are all labelled ["success"], and leave the
    stage at 1 as soon as there is one of them: clearing a wrong count of
    [k] takes [k] such messages. *)
Theorem success_run (char_cfg : CharCfg) (msg : string) (fb : bool)
    (n : nat) (s : Session) :
  contains_any msg (get_success_keywords (rules_of char_cfg)) = true ->
  0 <= get_wrong_count s ->
  let r := repeat_engine s char_cfg msg fb n in
  get_wrong_count r.1 = Z.max 0 (get_wrong_count s - Z.of_nat n)
  /\ ((0 < n)%nat -> get_logo_stage r.1 = 1)
  /\ r.2 = replicate n "success".
Proof.
  intros Hs. revert s. induction n as [|n IH]; intros s Hw.
  - cbn. split; [lia|]. split; [lia | reflexivity].
  - rewrite repeat_engine_S, (decide_success _ _ _ _ Hs). cbn [fst snd].
    set (s1 := set_logo_stage _ _).
    assert (Hw1 : get_wrong_count s1 = Z.max 0 (get_wrong_count s - 1))
      by reflexivity.
    assert (Hl1 : get_logo_stage s1 = 1) by reflexivity.
    destruct (IH s1) as (IHw & IHl & IHo); [lia|].
    split; [lia|]. split.
    + intros _. destruct n as [|n]; [exact Hl1 | apply IHl; lia].
    + rewrite IHo. reflexivity.
Qed.

Lemma success_run_witness :
  let s := {| character := "maya"; wrong_count := Some 3;
              logo_stage := Some 4; trust_score := None |} in
  let r := repeat_engine s Scenario.cfg "I am sorry" false 2 in
  get_wrong_count r.1 = 1 /\ get_logo_stage r.1 = 1
  /\ r.2 = ["success"; "success"].
Proof.
  intros s.
  destruct (success_run Scenario.cfg "I am sorry" false 2 s)
    as (Hw & Hl & Ho).
  - vm_compute. reflexivity.
  - vm_compute. discriminate.
  - split; [exact Hw|]. split; [apply Hl; lia | exact Ho].
Defined.

(** ** The session store: [get_session] and [reset_session] *)

(** X12: whatever the store held, after [get_session] it holds under the
    requested id exactly the session that is returned, and that session is
    bound to the requested character; every other id keeps its session, and
    the ids of the store are the old ones and the requested one: no session
    is ever removed. *)
Theorem get_session_returns_stored (st : gmap string Session)
    (sid ch : string) :
  let gs := get_session st sid ch in
  gs.1 !! sid = Some gs.2
  /\ character gs.2 = ch
  /\ (forall sid', sid' <> sid -> gs.1 !! sid' = st !! sid')
  /\ dom gs.1 = {[ sid ]} ∪ dom st.
Proof.
  intros gs. subst gs.
  split; [apply get_session_stored|].
  split; [apply get_session_character|].
  split; [intros sid' Hne; apply get_session_other, Hne|].
  rewrite get_session_cases. destruct (st !! sid) as [s|] eqn:E.
  - assert (Hin : sid ∈ dom st) by (apply elem_of_dom; eauto).
    destruct (String.eqb (character s) ch); cbn [fst].
    + symmetry. apply subseteq_union_1_L, singleton_subseteq_l, Hin.
    + rewrite dom_insert_L. reflexivity.
  - cbn [fst]. rewrite dom_insert_L. reflexivity.
Qed.

(** X13: a session that is already bound to the requested character is returned
    as it is, trust score included, and the store is not touched; and
    asking twice is the same as asking once. *)
Theorem get_session_idempotent (st : gmap string Session) (sid ch : string) :
  (forall s, st !! sid = Some s -> character s = ch ->
     get_session st sid ch = (st, s))
  /\ get_session (get_session st sid ch).1 sid ch = get_session st sid ch.
Proof.
  split.
  - intros s Hs Hc. rewrite get_session_cases, Hs.
    apply String.eqb_eq in Hc. rewrite Hc. reflexivity.
  - rewrite (get_session_cases (get_session st sid ch).1).
    rewrite get_session_stored.
    pose proof (get_session_character st sid ch) as Hc.
    apply String.eqb_eq in Hc. rewrite Hc.
    destruct (get_session st sid ch). reflexivity.
Qed.

Lemma get_session_idempotent_witness :
  let s := {| character := "maya"; wrong_count := Some 3;
              logo_stage := Some 4; trust_score := Some (-40) |} in
  get_session {[ "s1" := s ]} "s1" "maya" = ({[ "s1" := s ]}, s).
Proof.
  intros s.
  apply (proj1 (get_session_idempotent {[ "s1" := s ]} "s1" "maya") s).
  - vm_compute. reflexivity.
  - reflexivity.
Defined.

Lemma reset_session_valid (st : gmap string Session) (sid rid : string) :
  sid <> EmptyString -> (String.length sid <= 100)%nat ->
  reset_session st (Some sid) rid =
  (delete sid st,
   inr {| reset_session_id := sid;
          session_existed := bool_decide (is_Some (st !! sid));
          reset_request_id := rid |}).
Proof.
  intros Hne Hlen. unfold reset_session.
  rewrite (is_empty_false _ Hne).
  destruct (100 <? String.length sid)%nat eqn:E; [|reflexivity].
  apply Nat.ltb_lt in E. lia.
Qed.

(** X14: a reset with a non-empty id of at most 100 characters removes that
    session and no other, and reports whether there was one. *)
Theorem reset_removes_session (st : gmap string Session) (sid rid : string) :
  sid <> EmptyString -> (String.length sid <= 100)%nat ->
  let r := reset_session st (Some sid) rid in
  r.1 !! sid = None
  /\ (forall sid', sid' <> sid -> r.1 !! sid' = st !! sid')
  /\ exists resp,
       r.2 = inr resp
       /\ reset_session_id resp = sid
       /\ (session_existed resp = true <-> is_Some (st !! sid)).
Proof.
  intros Hne Hlen r. subst r. rewrite (reset_session_valid _ _ _ Hne Hlen).
  cbn [fst snd]. split; [apply lookup_delete_eq|].
  split; [intros sid' Hs; apply lookup_delete_ne; congruence|].
  eexists. split; [reflexivity|]. split; [reflexivity|].
  cbn [session_existed]. apply bool_decide_eq_true.
Qed.

Lemma reset_removes_session_witness :
  let st : gmap string Session :=
    <[ "s1" := new_session "maya" ]> {[ "s2" := new_session "eli" ]} in
  let r := reset_session st (Some "s1") "r1" in
  r.1 !! "s1" = None
  /\ (forall sid', sid' <> "s1" -> r.1 !! sid' = st !! sid')
  /\ exists resp,
       r.2 = inr resp
       /\ reset_session_id resp = "s1"
       /\ (session_existed resp = true <-> is_Some (st !! "s1")).
Proof.
  intros st.
  apply (reset_removes_session st "s1" "r1").
  - discriminate.
  - apply Nat.leb_le. vm_compute. reflexivity.
Defined.

(** X15: resetting is idempotent: a second reset of the same id reports that no
    session existed and leaves the store as the first one left it; the same
    holds for an id that never had a session, whose reset changes nothing. *)
Theorem reset_twice (st : gmap string Session) (sid rid1 rid2 : string) :
  sid <> EmptyString -> (String.length sid <= 100)%nat ->
  let r1 := reset_session st (Some sid) rid1 in
  let r2 := reset_session r1.1 (Some sid) rid2 in
  r2.1 = r1.1
  /\ r2.2 = inr {| reset_session_id := sid; session_existed := false;
                   reset_request_id := rid2 |}
  /\ (st !! sid = None ->
      r1 = (st, inr {| reset_session_id := sid; session_existed := false;
                       reset_request_id := rid1 |})).
Proof.
  intros Hne Hlen r1 r2. subst r1 r2.
  rewrite !(reset_session_valid _ _ _ Hne Hlen). cbn [fst snd].
  split; [apply delete_delete_eq|]. split.
  - rewrite lookup_delete_eq. reflexivity.
  - intros Hnone. rewrite Hnone, (delete_id _ _ Hnone). reflexivity.
Qed.

Lemma reset_twice_witness :
  let r1 := reset_session {[ "s1" := new_session "maya" ]} (Some "s1") "r1" in
  let r2 := reset_session r1.1 (Some "s1") "r2" in
  r2.1 = r1.1
  /\ r2.2 = inr {| reset_session_id := "s1"; session_existed := false;
                   reset_request_id := "r2" |}.
Proof.
  destruct (reset_twice {[ "s1" := new_session "maya" ]} "s1" "r1" "r2")
    as (H1 & H2 & _).
  - discriminate.
  - apply Nat.leb_le. vm_compute. reflexivity.
  - split; assumption.
Defined.

(** X16: a reset with no id, an empty id or an id of more than 100 characters is
    refused and changes nothing. The chat endpoint has no such limit: an
    accepted request with an id of more than 100 characters stores a session
    under it, and no reset can remove that session. *)
Theorem reset_refuses_invalid_ids (st : gmap string Session) (rid : string) :
  reset_session st None rid = (st, inl InvalidSessionID)
  /\ reset_session st (Some EmptyString) rid = (st, inl InvalidSessionID)
  /\ (forall sid, (100 < String.length sid)%nat ->
        reset_session st (Some sid) rid = (st, inl InvalidSessionID))
  /\ (forall CHARACTERS client calls req rid' char_cfg sid,
        accepted CHARACTERS req char_cfg ->
        req_sessionId req = Some sid ->
        (100 < String.length sid)%nat ->
        let w' := (chat CHARACTERS client
                     {| session_state := st; llm_calls := calls |}
                     req rid').1 in
        is_Some (session_state w' !! sid)
        /\ reset_session (session_state w') (Some sid) rid =
           (session_state w', inl InvalidSessionID)).
Proof.
  assert (Hlong : forall st' sid, (100 < String.length sid)%nat ->
            reset_session st' (Some sid) rid = (st', inl InvalidSessionID)).
  { intros st' sid Hlen. unfold reset_session.
    apply Nat.ltb_lt in Hlen. rewrite Hlen, orb_true_r. reflexivity. }
  split; [reflexivity|]. split; [reflexivity|]. split; [apply Hlong|].
  intros CHARACTERS client calls req rid' cfg sid Hacc Hsid Hlen w'.
  split; [|apply Hlong, Hlen].
  assert (Hid : chat_session_id req = sid).
  { unfold chat_session_id. rewrite Hsid.
    destruct sid; [cbn in Hlen; lia | reflexivity]. }
  subst w'. rewrite (chat_accepted _ _ _ _ _ _ Hacc).
  cbn [fst session_state]. rewrite Hid, lookup_insert_eq. eauto.
Qed.

Lemma reset_refuses_invalid_ids_witness :
  let sid := String.concat "" (replicate 101 "x") in
  let w' := (chat Scenario.catalog None Scenario.start
               {| req_message := "hello"; req_character := "maya";
                  req_sessionId := Some sid |} "r1").1 in
  is_Some (session_state w' !! sid)
  /\ reset_session (session_state w') (Some sid) "r2" =
     (session_state w', inl InvalidSessionID).
Proof.
  intros sid.
  destruct (reset_refuses_invalid_ids ∅ "r2") as (_ & _ & _ & H).
  apply (H Scenario.catalog None []
           {| req_message := "hello"; req_character := "maya";
              req_sessionId := Some sid |} "r1" Scenario.cfg sid).
  - solve_accepted.
  - reflexivity.
  - apply Nat.ltb_lt. vm_compute. reflexivity.
Defined.

(** X17: after a reset, the next accepted chat request for that id starts from
    scratch, whatever the session held before: counters 0 and 1, and the
    trust score its own message gives, counted from 0. *)
Theorem reset_then_chat_starts_afresh (CHARACTERS : gmap string CharCfg)
    (client : option LLM) (w : World) (req : ChatRequest) (rid rid' : string)
    (char_cfg : CharCfg) :
  accepted CHARACTERS req char_cfg ->
  (String.length (chat_session_id req) <= 100)%nat ->
  let r := reset_session (session_state w) (Some (chat_session_id req)) rid in
  let w' := (chat CHARACTERS client
               {| session_state := r.1; llm_calls := llm_calls w |}
               req rid').1 in
  exists s',
    session_state w' !! chat_session_id req = Some s'
    /\ character s' = chat_character req
    /\ wrong_count s' = Some 0
    /\ logo_stage s' = Some 1
    /\ trust_score s' =
       Some (update_trust_score char_cfg (chat_user_message req) 0).
Proof.
  intros Hacc Hlen r w'. subst r w'.
  assert (Hne : chat_session_id req <> EmptyString).
  { unfold chat_session_id. destruct (req_sessionId req) as [[|c s]|];
      discriminate. }
  rewrite (reset_session_valid _ _ _ Hne Hlen). cbn [fst].
  rewrite (chat_accepted _ _ _ _ _ _ Hacc). cbn [fst session_state].
  rewrite get_session_cases, lookup_delete_eq. cbn [fst snd].
  eexists. split; [apply lookup_insert_eq|]. repeat split; reflexivity.
Qed.

Lemma reset_then_chat_starts_afresh_witness :
  let old := {| character := "maya"; wrong_count := Some 3;
                logo_stage := Some 4; trust_score := Some 60 |} in
  let w := {| session_state := {[ "s1" := old ]}; llm_calls := [] |} in
  let r := reset_session (session_state w) (Some "s1") "r1" in
  let w' := (chat Scenario.catalog None
               {| session_state := r.1; llm_calls := [] |}
               (Scenario.request "maya" "sorry") "r2").1 in
  exists s',
    session_state w' !! "s1" = Some s'
    /\ character s' = "maya"
    /\ wrong_count s' = Some 0
    /\ logo_stage s' = Some 1
    /\ trust_score s' = Some (-20).
Proof.
  intros old w.
  apply (reset_then_chat_starts_afresh Scenario.catalog None w
           (Scenario.request "maya" "sorry") "r1" "r2" Scenario.cfg).
  - solve_accepted.
  - apply Nat.leb_le. vm_compute. reflexivity.
Defined.

(** ** The chat endpoint: validation *)

(** X18: the four refusals of [chat], in the order they are tested: an empty
    sanitised character, then a character that is no key of the catalogue,
    then a message that is empty once stripped, then a stripped message of
    more than 1000 characters. Each leaves the world as it was (no session
    is created and the hosted model is not called), and a request is
    answered exactly when none applies. *)
Theorem chat_refusals (CHARACTERS : gmap string CharCfg)
    (client : option LLM) (w : World) (req : ChatRequest) (rid : string) :
  let r := chat CHARACTERS client w req rid in
  let ch := chat_character req in
  let msg := chat_user_message req in
  (ch = EmptyString -> r = (w, inl CharacterRequired))
  /\ (ch <> EmptyString -> CHARACTERS !! ch = None ->
      r = (w, inl (UnknownCharacter ch)))
  /\ (ch <> EmptyString -> is_Some (CHARACTERS !! ch) -> msg = EmptyString ->
      r = (w, inl MessageEmpty))
  /\ (ch <> EmptyString -> is_Some (CHARACTERS !! ch) -> msg <> EmptyString ->
      (1000 < String.length msg)%nat ->
      r = (w, inl MessageTooLong))
  /\ (answered r.2 <-> exists char_cfg, accepted CHARACTERS req char_cfg)
  /\ (rejected r.2 -> r.1 = w).
Proof.
  intros r ch msg. subst r ch msg. unfold chat.
  split. { intros ->. reflexivity. }
  split. { intros Hne ->. rewrite (is_empty_false _ Hne). reflexivity. }
  split.
  { intros Hne [cfg ->] ->. rewrite (is_empty_false _ Hne). reflexivity. }
  split.
  { intros Hne [cfg ->] Hm Hlen.
    rewrite (is_empty_false _ Hne), (is_empty_false _ Hm).
    apply Nat.ltb_lt in Hlen. rewrite Hlen. reflexivity. }
  fold (chat CHARACTERS client w req rid). split.
  - split.
    + intros [resp Hr]. apply (chat_answered_accepted _ _ _ _ _ _ Hr).
    + intros [cfg Hacc]. apply (chat_answered _ _ _ _ _ Hacc).
  - intros [e He]. apply (chat_rejected_world _ _ _ _ _ _ He).
Qed.

Lemma chat_refusals_witness :
  chat Scenario.catalog None Scenario.start
    (Scenario.request "stanley" "     ") "r1"
  = (Scenario.start, inl (UnknownCharacter "stanley")).
Proof.
  destruct (chat_refusals Scenario.catalog None Scenario.start
              (Scenario.request "stanley" "     ") "r1") as (_ & H & _).
  apply H.
  - vm_compute. discriminate.
  - vm_compute. reflexivity.
Defined.

Lemma run_chat_cons (CHARACTERS : gmap string CharCfg) (client : option LLM)
    (w : World) (req : ChatRequest) (rid : string)
    (rest : list (ChatRequest * string)) :
  run_chat CHARACTERS client w ((req, rid) :: rest) =
  let c := chat CHARACTERS client w req rid in
  let r := run_chat CHARACTERS client c.1 rest in
  (r.1, c.2 :: r.2).
Proof.
  cbn [run_chat]. destruct (chat CHARACTERS client w req rid) as [w' r'].
  cbn [fst snd]. destruct (run_chat CHARACTERS client w' rest) as [final rs].
  reflexivity.
Qed.

(** X19: with an empty catalogue (the configuration file was not found) the
    server still answers: every chat request of any run is refused, and the
    world stays as it was. *)
Theorem empty_catalogue_refuses_all (client : option LLM) (w : World)
    (reqs : list (ChatRequest * string)) :
  let r := run_chat ∅ client w reqs in
  r.1 = w /\ Forall rejected r.2 /\ length r.2 = length reqs.
Proof.
  induction reqs as [|[req rid] rest IH].
  - cbn. split; [reflexivity|]. split; [constructor | reflexivity].
  - rewrite run_chat_cons.
    assert (Hc : exists e, chat ∅ client w req rid = (w, inl e)).
    { unfold chat. destruct (Py.is_empty (chat_character req)); [eauto|].
      rewrite lookup_empty. eauto. }
    destruct Hc as [e Hc]. rewrite Hc. cbn [fst snd].
    destruct IH as (IH1 & IH2 & IH3).
    split; [exact IH1|]. split.
    + constructor; [exists e; reflexivity | exact IH2].
    + cbn [length]. rewrite IH3. reflexivity.
Qed.


(** ** The chat endpoint: the hosted model and the store *)

(** X20: with a client configured, an accepted request sends exactly one request
    to the hosted model: the stripped message, under the system prompt built
    from the character's lore and from the deceiver prompt when the trust
    score just stored is at least 0, the guardian prompt otherwise. When the
    model answers, its text is the reply, unchanged. *)
Theorem chat_calls_model_once (CHARACTERS : gmap string CharCfg)
    (complete : LLM) (w : World) (req : ChatRequest) (rid : string)
    (char_cfg : CharCfg) :
  accepted CHARACTERS req char_cfg ->
  let r := chat CHARACTERS (Some complete) w req rid in
  let t := trust_of r.1 (chat_session_id req) in
  let prompt :=
    build_system_prompt (chat_character req) char_cfg
      (if 0 <=? t then DECEIVER_PROMPT else GUARDIAN_PROMPT) in
  llm_calls r.1 = llm_calls w ++ [(prompt, chat_user_message req)]
  /\ forall text,
       complete (length (llm_calls w)) prompt (chat_user_message req)
       = inl (Some text) ->
       exists resp, r.2 = inr resp /\ resp !! "reply" = Some (JStr text).
Proof.
  intros Hacc r t prompt. subst r t prompt.
  rewrite (trust_of_chat _ _ _ _ _ _ Hacc).
  rewrite (chat_accepted _ _ _ _ _ _ Hacc). cbn [fst snd llm_calls].
  set (t := update_trust_score _ _ _).
  assert (Hp : (select_persona t).1 =
               if 0 <=? t then DECEIVER_PROMPT else GUARDIAN_PROMPT).
  { unfold select_persona. destruct (0 <=? t); reflexivity. }
  rewrite Hp. unfold generate_ai_response. split.
  - destruct (complete _ _ _) as [text|e]; [reflexivity|].
    destruct (_ || _); [reflexivity|].
    destruct (_ || _); [reflexivity|].
    destruct (_ || _); reflexivity.
  - intros text Ht. rewrite Ht. cbn [fst]. eexists.
    split; [reflexivity | apply lookup_insert_eq].
Qed.

Lemma chat_calls_model_once_witness :
  let r := chat Scenario.catalog (Some (Scenario.answering "Trust me."))
             Scenario.start (Scenario.request "maya" " hello ") "r1" in
  llm_calls r.1 =
    [(build_system_prompt "maya" Scenario.cfg DECEIVER_PROMPT, "hello")]
  /\ exists resp, r.2 = inr resp /\ resp !! "reply" = Some (JStr "Trust me.").
Proof.
  destruct (chat_calls_model_once Scenario.catalog
              (Scenario.answering "Trust me.") Scenario.start
              (Scenario.request "maya" " hello ") "r1" Scenario.cfg)
    as [Hcalls Hreply].
  - solve_accepted.
  - split; [exact Hcalls|]. apply Hreply. reflexivity.
Defined.

Lemma chat_session_id_nonempty (req : ChatRequest) :
  chat_session_id req <> EmptyString.
Proof.
  unfold chat_session_id.
  destruct (req_sessionId req) as [[|c s]|]; discriminate.
Qed.

Lemma chat_store_ok_weaken (CHARACTERS : gmap string CharCfg) (n m : Z)
    (st : gmap string Session) :
  n <= m -> chat_store_ok CHARACTERS n st -> chat_store_ok CHARACTERS m st.
Proof.
  intros Hnm H sid s Hs. destruct (H sid s Hs) as (H1 & H2 & H3 & H4 & H5 & H6).
  repeat split; try assumption; lia.
Qed.

Lemma update_trust_score_cases (char_cfg : CharCfg) (msg : string) (t : Z) :
  update_trust_score char_cfg msg t = t - 20
  \/ update_trust_score char_cfg msg t = t + 20
  \/ update_trust_score char_cfg msg t = t.
Proof.
  unfold update_trust_score.
  destruct (contains_any msg (get_success_keywords _)); [tauto|].
  destruct (contains_any msg (get_fail_keywords _)); tauto.
Qed.

Lemma chat_keeps_store_ok (CHARACTERS : gmap string CharCfg)
    (client : option LLM) (w : World) (req : ChatRequest) (rid : string)
    (n : Z) :
  0 <= n ->
  chat_store_ok CHARACTERS n (session_state w) ->
  chat_store_ok CHARACTERS (n + 1)
    (session_state (chat CHARACTERS client w req rid).1).
Proof.
  intros Hn Hok.
  destruct (chat CHARACTERS client w req rid).2 as [e|resp] eqn:E.
  { rewrite (chat_rejected_world _ _ _ _ _ _ E).
    apply (chat_store_ok_weaken _ n); [lia | exact Hok]. }
  destruct (chat_answered_accepted _ _ _ _ _ _ E) as [cfg Hacc].
  rewrite (chat_accepted _ _ _ _ _ _ Hacc). cbn [fst session_state].
  set (sid := chat_session_id req). set (ch := chat_character req).
  pose proof (get_session_character (session_state w) sid ch) as Hgc.
  assert (Hgo : forall sid', sid' <> sid ->
            (get_session (session_state w) sid ch).1 !! sid'
            = session_state w !! sid')
    by (intros sid' Hne; apply get_session_other, Hne).
  assert (Hold :
    wrong_count (get_session (session_state w) sid ch).2 = Some 0
    /\ logo_stage (get_session (session_state w) sid ch).2 = Some 1
    /\ (20 | get_trust_score (get_session (session_state w) sid ch).2)
    /\ - (20 * n)
       <= get_trust_score (get_session (session_state w) sid ch).2 <= 20 * n).
  { rewrite get_session_cases.
    destruct (session_state w !! sid) as [s0|] eqn:E0.
    - destruct (Hok sid s0 E0) as (_ & _ & H3 & H4 & H5 & H6).
      destruct (String.eqb (character s0) ch); cbn [snd].
      + repeat split; assumption || lia.
      + cbn. repeat split; try lia. apply Z.divide_0_r.
    - cbn. repeat split; try lia. apply Z.divide_0_r. }
  set (gs := get_session (session_state w) sid ch) in *. clearbody gs.
  pose proof (update_trust_score_cases cfg (chat_user_message req)
                (get_trust_score gs.2)) as Hcases.
  set (t := update_trust_score _ _ _) in *. clearbody t.
  destruct Hold as (H3 & H4 & H5 & H6).
  intros sid' s Hs.
  destruct (decide (sid' = sid)) as [->|Hne].
  - rewrite lookup_insert_eq in Hs. injection Hs as <-.
    split; [apply chat_session_id_nonempty|].
    split.
    { cbn [character set_trust_score]. rewrite Hgc.
      destruct Hacc as (_ & Hcat & _). fold ch in Hcat. rewrite Hcat. eauto. }
    split; [exact H3|]. split; [exact H4|].
    change (get_trust_score (set_trust_score t gs.2)) with t.
    split.
    + destruct H5 as [k Hk]. destruct Hcases as [Hc|[Hc|Hc]]; rewrite Hc, Hk.
      * exists (k - 1). lia.
      * exists (k + 1). lia.
      * exists k. lia.
    + lia.
  - rewrite lookup_insert_ne in Hs by congruence.
    rewrite Hgo in Hs by exact Hne.
    assert (Hle : n <= n + 1) by (clear; lia).
    exact (chat_store_ok_weaken CHARACTERS n (n + 1) _ Hle Hok sid' s Hs).
Qed.

Lemma run_chat_keeps_store_ok (CHARACTERS : gmap string CharCfg)
    (client : option LLM) (reqs : list (ChatRequest * string)) (w : World)
    (n : Z) :
  0 <= n ->
  chat_store_ok CHARACTERS n (session_state w) ->
  chat_store_ok CHARACTERS (n + Z.of_nat (length reqs))
    (session_state (run_chat CHARACTERS client w reqs).1).
Proof.
  revert w n. induction reqs as [|[req rid] rest IH]; intros w n Hn Hok.
  - cbn [run_chat fst length]. apply (chat_store_ok_weaken _ n); [lia|exact Hok].
  - rewrite run_chat_cons. cbn [fst length].
    pose proof (chat_keeps_store_ok CHARACTERS client w req rid n Hn Hok) as H1.
    assert (Hn1 : 0 <= n + 1) by lia.
    specialize (IH (chat CHARACTERS client w req rid).1 (n + 1) Hn1 H1).
    replace (n + Z.of_nat (S (length rest)))
      with (n + 1 + Z.of_nat (length rest)) by lia.
    exact IH.
Qed.

(** X21: in a store that only chat requests have written, starting from the
    empty one, every session is stored under a non-empty id and is bound to
    a character of the catalogue; its wrong count is 0 and its stage 1,
    since the endpoint never runs the outcome engine; and its trust score
    is a multiple of 20 that lies within 20 times the number of requests
    made, on either side of 0. *)
Theorem chat_only_store_invariant (CHARACTERS : gmap string CharCfg)
    (client : option LLM) (calls : list (string * string))
    (reqs : list (ChatRequest * string)) :
  let r := run_chat CHARACTERS client
             {| session_state := ∅; llm_calls := calls |} reqs in
  forall sid s, session_state r.1 !! sid = Some s ->
    sid <> EmptyString
    /\ is_Some (CHARACTERS !! character s)
    /\ wrong_count s = Some 0
    /\ logo_stage s = Some 1
    /\ (20 | get_trust_score s)
    /\ - (20 * Z.of_nat (length reqs)) <= get_trust_score s
       <= 20 * Z.of_nat (length reqs).
Proof.
  intros r. subst r.
  assert (H0 : chat_store_ok CHARACTERS 0 ∅).
  { intros sid s Hs. rewrite lookup_empty in Hs. discriminate. }
  pose proof (run_chat_keeps_store_ok CHARACTERS client reqs
                {| session_state := ∅; llm_calls := calls |} 0
                (Z.le_refl 0) H0) as H.
  rewrite Z.add_0_l in H. exact H.
Qed.

Lemma chat_only_store_invariant_witness :
  let r := run_chat Scenario.catalog None Scenario.start
             [(Scenario.request "maya" "click here", "r1");
              (Scenario.request "maya" "click here again", "r2");
              (Scenario.request "nobody" "hello", "r3")] in
  exists s,
    session_state r.1 !! "s1" = Some s
    /\ wrong_count s = Some 0 /\ logo_stage s = Some 1
    /\ (20 | get_trust_score s).
Proof.
  intros r.
  assert (Hs : session_state r.1 !! "s1" =
               Some {| character := "maya"; wrong_count := Some 0;
                       logo_stage := Some 1; trust_score := Some 40 |}).
  { vm_compute. reflexivity. }
  destruct (chat_only_store_invariant Scenario.catalog None []
              [(Scenario.request "maya" "click here", "r1");
               (Scenario.request "maya" "click here again", "r2");
               (Scenario.request "nobody" "hello", "r3")] "s1" _ Hs)
    as (_ & _ & Hw & Hl & Hd & _).
  eexists. split; [exact Hs|]. split; [exact Hw|]. split; [exact Hl|exact Hd].
Defined.

(** X22: the first answer of a session: when the store holds no session
    under the request's id, the trust score stored is the one the message
    gives counted from 0. When a reply text was produced, that score is
    returned and the persona is the guardian exactly when the message holds
    a success keyword; every other first message meets the deceiver. When
    the completion came without content, the last-resort answer carries the
    trust score 0 and the guardian. *)
Theorem first_answer_persona (CHARACTERS : gmap string CharCfg)
    (client : option LLM) (w : World) (req : ChatRequest) (rid : string)
    (char_cfg : CharCfg) :
  accepted CHARACTERS req char_cfg ->
  session_state w !! chat_session_id req = None ->
  let success :=
    contains_any (chat_user_message req)
      (get_success_keywords (rules_of char_cfg)) in
  let t := update_trust_score char_cfg (chat_user_message req) 0 in
  let prompt :=
    build_system_prompt (chat_character req) char_cfg (select_persona t).1 in
  let silent :=
    no_content client (llm_calls w) prompt (chat_user_message req) in
  let r := chat CHARACTERS client w req rid in
  trust_of r.1 (chat_session_id req) = t
  /\ exists resp,
       r.2 = inr resp
       /\ (~ silent ->
           resp !! "trust_score" = Some (JInt t)
           /\ resp !! "persona" =
              Some (JStr (if success then "guardian" else "deceiver")))
       /\ (silent ->
           resp !! "trust_score" = Some (JInt 0)
           /\ resp !! "persona" = Some (JStr "guardian")).
Proof.
  intros Hacc Hnone success t prompt silent r.
  subst success prompt silent r.
  rewrite (trust_of_chat _ _ _ _ _ _ Hacc).
  rewrite (chat_accepted _ _ _ _ _ _ Hacc). cbn [snd].
  rewrite get_session_cases, Hnone. cbn [snd].
  change (get_trust_score (new_session (chat_character req))) with 0.
  fold t. split; [reflexivity|].
  destruct (generate_reply_cases client (chat_character req)
              (chat_user_message req)
              (build_system_prompt (chat_character req) char_cfg
                 (select_persona t).1) rid (llm_calls w))
    as [[Hg Hsilent]|[text [Hg Hsilent]]]; rewrite Hg.
  - eexists. split; [reflexivity|].
    split; [intros Hn; contradiction|]. intros _. split.
    + rewrite lookup_insert_ne by discriminate. apply lookup_insert_eq.
    + do 2 (rewrite lookup_insert_ne by discriminate). apply lookup_insert_eq.
  - eexists. split; [reflexivity|].
    split; [|intros Hs; contradiction]. intros _. split.
    + rewrite lookup_insert_ne by discriminate. apply lookup_insert_eq.
    + do 2 (rewrite lookup_insert_ne by discriminate). rewrite lookup_insert_eq.
      subst t. unfold update_trust_score, select_persona.
      destruct (contains_any _ (get_success_keywords _)); [reflexivity|].
      destruct (contains_any _ (get_fail_keywords _)); reflexivity.
Qed.

Lemma first_answer_persona_witness :
  exists resp,
    (chat Scenario.catalog (Some (Scenario.answering "Go on."))
       Scenario.start (Scenario.request "eli" "so sorry") "r1").2 = inr resp
    /\ resp !! "trust_score" = Some (JInt (-20))
    /\ resp !! "persona" = Some (JStr "guardian").
Proof.
  destruct (first_answer_persona Scenario.catalog
              (Some (Scenario.answering "Go on.")) Scenario.start
              (Scenario.request "eli" "so sorry") "r1" Scenario.cfg)
    as (_ & resp & Hr & Hn & _).
  - solve_accepted.
  - vm_compute. reflexivity.
  - exists resp. split; [exact Hr|]. apply Hn. discriminate.
Defined.

(** ** The canned replies *)

Lemma rate_limit_fallback_cases (ch msg : string) :
  get_rate_limit_fallback ch msg =
  if String.eqb ch "maya" then
    "â³ Maya here - I'm getting a lot of messages right now. Give me a moment to process your message about '" +:+ Py.slice_to 30 msg
    +:+ "...' and I'll respond thoughtfully."
  else if String.eqb ch "eli" then
    "â³ Eli speaking - Whoa, lots of activity! Let me catch up on your message about '" +:+ Py.slice_to 30 msg
    +:+ "...' Just need a sec to think it through."
  else if String.eqb ch "stanley" then
    "â³ Stanley here - I'm processing many conversations right now. Your message about '" +:+ Py.slice_to 30 msg
    +:+ "...' is important, just give me a moment."
  else "â³ I'm experiencing high traffic right now. Please try again in a moment.".
Proof.
  unfold get_rate_limit_fallback.
  destruct (String.eqb_spec ch "maya") as [->|Hm].
  { rewrite lookup_insert_eq. reflexivity. }
  rewrite lookup_insert_ne by congruence.
  destruct (String.eqb_spec ch "eli") as [->|He].
  { rewrite lookup_insert_eq. reflexivity. }
  rewrite lookup_insert_ne by congruence.
  destruct (String.eqb_spec ch "stanley") as [->|Hs].
  { rewrite lookup_singleton_eq. reflexivity. }
  rewrite lookup_singleton_ne by congruence. reflexivity.
Qed.

Lemma connection_fallback_cases (ch msg : string) :
  get_connection_fallback ch msg =
  if String.eqb ch "maya" then
    "ğŸ”„ Maya here - I'm having some connection issues, but I caught your message about '" +:+ Py.slice_to 30 msg
    +:+ "...' Let me give you a quick response while I reconnect."
  else if String.eqb ch "eli" then
    "ğŸ”„ Eli speaking - Network's being wonky, but I heard you mention '" +:+ Py.slice_to 30 msg
    +:+ "...' Let me work with what I've got here."
  else if String.eqb ch "stanley" then
    "ğŸ”„ Stanley here - Technical difficulties on my end, but regarding your message about '" +:+ Py.slice_to 30 msg
    +:+ "...' I can still help you out."
  else "ğŸ”„ I'm experiencing connection issues. Please try again shortly.".
Proof.
  unfold get_connection_fallback.
  destruct (String.eqb_spec ch "maya") as [->|Hm].
  { rewrite lookup_insert_eq. reflexivity. }
  rewrite lookup_insert_ne by congruence.
  destruct (String.eqb_spec ch "eli") as [->|He].
  { rewrite lookup_insert_eq. reflexivity. }
  rewrite lookup_insert_ne by congruence.
  destruct (String.eqb_spec ch "stanley") as [->|Hs].
  { rewrite lookup_singleton_eq. reflexivity. }
  rewrite lookup_singleton_ne by congruence. reflexivity.
Qed.

Lemma invalid_request_fallback_cases (ch msg : string) :
  get_invalid_request_fallback ch msg =
  if String.eqb ch "maya" then
    "ğŸ¤” Maya here - Something about your message '" +:+ Py.slice_to 30 msg
    +:+ "...' is causing me technical issues. Could you rephrase that?"
  else if String.eqb ch "eli" then
    "ğŸ¤” Eli speaking - Your message '" +:+ Py.slice_to 30 msg
    +:+ "...' is breaking my brain a bit. Mind trying a different way to say that?"
  else if String.eqb ch "stanley" then
    "ğŸ¤” Stanley here - I'm having trouble processing '" +:+ Py.slice_to 30 msg
    +:+ "...' Could you try asking that differently?"
  else "ğŸ¤” I'm having trouble understanding that request. Could you rephrase it?".
Proof.
  unfold get_invalid_request_fallback.
  destruct (String.eqb_spec ch "maya") as [->|Hm].
  { rewrite lookup_insert_eq. reflexivity. }
  rewrite lookup_insert_ne by congruence.
  destruct (String.eqb_spec ch "eli") as [->|He].
  { rewrite lookup_insert_eq. reflexivity. }
  rewrite lookup_insert_ne by congruence.
  destruct (String.eqb_spec ch "stanley") as [->|Hs].
  { rewrite lookup_singleton_eq. reflexivity. }
  rewrite lookup_singleton_ne by congruence. reflexivity.
Qed.

Lemma generic_ai_fallback_cases (ch msg : string) :
  get_generic_ai_fallback ch msg =
  if String.eqb ch "maya" then
    "âš ï¸ Maya here - I'm having some technical difficulties, but I understand you're asking about '" +:+ Py.slice_to 30 msg
    +:+ "...' Let me try to help despite the issues."
  else if String.eqb ch "eli" then
    "âš ï¸ Eli speaking - My AI systems are acting up, but I caught your message about '" +:+ Py.slice_to 30 msg
    +:+ "...' I'll do my best to respond."
  else if String.eqb ch "stanley" then
    "âš ï¸ Stanley here - Technical problems on my end, but regarding '" +:+ Py.slice_to 30 msg
    +:+ "...' I'll give you what I can."
  else "âš ï¸ I'm experiencing technical difficulties. Please try again later.".
Proof.
  unfold get_generic_ai_fallback.
  destruct (String.eqb_spec ch "maya") as [->|Hm].
  { rewrite lookup_insert_eq. reflexivity. }
  rewrite lookup_insert_ne by congruence.
  destruct (String.eqb_spec ch "eli") as [->|He].
  { rewrite lookup_insert_eq. reflexivity. }
  rewrite lookup_insert_ne by congruence.
  destruct (String.eqb_spec ch "stanley") as [->|Hs].
  { rewrite lookup_singleton_eq. reflexivity. }
  rewrite lookup_singleton_ne by congruence. reflexivity.
Qed.

Lemma length_app (s t : string) :
  String.length (s +:+ t) = (String.length s + String.length t)%nat.
Proof.
  induction s as [|c s IH]; [reflexivity|].
  rewrite append_cons. cbn [String.length]. rewrite IH. reflexivity.
Qed.

Lemma length_slice_to (n : nat) (s : string) :
  String.length (Py.slice_to n s) = Nat.min n (String.length s).
Proof.
  unfold Py.slice_to. revert s. induction n as [|n IH]; intros s.
  - destruct s; reflexivity.
  - destruct s as [|c s]; [reflexivity|].
    cbn [String.substring String.length Nat.min]. rewrite IH. reflexivity.
Qed.

Lemma slice_to_empty (n : nat) : Py.slice_to n EmptyString = EmptyString.
Proof. destruct n; reflexivity. Qed.

(** The length of a reply template filled with an excerpt of the message. *)
Lemma template_length (p q : string) (n : nat) (msg : string) :
  String.length (p +:+ Py.slice_to n msg +:+ q) =
  (String.length (p +:+ Py.slice_to n EmptyString +:+ q)
   + Nat.min n (String.length msg))%nat.
Proof.
  rewrite slice_to_empty, !length_app, length_slice_to. cbn [String.length].
  lia.
Qed.

Lemma template_occurs (p q : string) (n : nat) (msg : string) :
  occurs_in (Py.slice_to n msg) (p +:+ Py.slice_to n msg +:+ q).
Proof. exists p, q. reflexivity. Qed.

(** The three characters that have canned replies of their own. *)
Ltac named_character ch :=
  destruct (String.eqb_spec ch "maya") as [->|?];
  [|destruct (String.eqb_spec ch "eli") as [->|?];
    [|destruct (String.eqb_spec ch "stanley") as [->|?]]].

(** X23: for "maya", "eli" and "stanley" every canned reply quotes the message:
    the first 30 characters of it in the four failure replies, the first 50
    in the demo-mode reply. For every other character the five canned
    replies are fixed texts that do not depend on the message at all. *)
Theorem canned_replies_quote_message (ch msg : string) :
  (ch = "maya" \/ ch = "eli" \/ ch = "stanley" ->
   occurs_in (Py.slice_to 30 msg) (get_rate_limit_fallback ch msg)
   /\ occurs_in (Py.slice_to 30 msg) (get_connection_fallback ch msg)
   /\ occurs_in (Py.slice_to 30 msg) (get_invalid_request_fallback ch msg)
   /\ occurs_in (Py.slice_to 30 msg) (get_generic_ai_fallback ch msg)
   /\ occurs_in (Py.slice_to 50 msg) (get_demo_mode_response ch msg))
  /\ (ch <> "maya" -> ch <> "eli" -> ch <> "stanley" ->
      forall msg',
        get_rate_limit_fallback ch msg = get_rate_limit_fallback ch msg'
        /\ get_connection_fallback ch msg = get_connection_fallback ch msg'
        /\ get_invalid_request_fallback ch msg
           = get_invalid_request_fallback ch msg'
        /\ get_generic_ai_fallback ch msg = get_generic_ai_fallback ch msg'
        /\ get_demo_mode_response ch msg = get_demo_mode_response ch msg').
Proof.
  split.
  - intros [->|[->| ->]];
      rewrite rate_limit_fallback_cases, connection_fallback_cases,
        invalid_request_fallback_cases, generic_ai_fallback_cases,
        demo_mode_response_cases;
      cbn [String.eqb Ascii.eqb Bool.eqb];
      repeat split; apply template_occurs.
  - intros Hm He Hs msg'.
    rewrite !rate_limit_fallback_cases, !connection_fallback_cases,
      !invalid_request_fallback_cases, !generic_ai_fallback_cases,
      !demo_mode_response_cases.
    apply String.eqb_neq in Hm, He, Hs. rewrite Hm, He, Hs.
    repeat split; reflexivity.
Qed.

Lemma canned_replies_quote_message_witness :
  occurs_in "please click here to claim you"
    (get_generic_ai_fallback "eli" "please click here to claim your prize now")
  /\ get_connection_fallback "zed" "hello" = get_connection_fallback "zed" "bye".
Proof.
  destruct (canned_replies_quote_message "eli"
              "please click here to claim your prize now") as [H _].
  destruct (canned_replies_quote_message "zed" "hello") as [_ H'].
  split.
  - apply H. right. left. reflexivity.
  - apply H'; discriminate.
Defined.

(** X24: a canned reply is never much longer than its template: for "maya",
    "eli" and "stanley" its length is that of the reply to an empty message
    plus the length of the message, counted up to 30 (50 in demo mode); for
    every other character it is the length of the fixed text. *)
Theorem canned_reply_length (ch msg : string) :
  let named :=
    String.eqb ch "maya" || String.eqb ch "eli" || String.eqb ch "stanley" in
  let quoted (n : nat) :=
    if named then Nat.min n (String.length msg) else 0%nat in
  String.length (get_rate_limit_fallback ch msg)
  = (String.length (get_rate_limit_fallback ch EmptyString) + quoted 30%nat)%nat
  /\ String.length (get_connection_fallback ch msg)
     = (String.length (get_connection_fallback ch EmptyString)
        + quoted 30%nat)%nat
  /\ String.length (get_invalid_request_fallback ch msg)
     = (String.length (get_invalid_request_fallback ch EmptyString)
        + quoted 30%nat)%nat
  /\ String.length (get_generic_ai_fallback ch msg)
     = (String.length (get_generic_ai_fallback ch EmptyString)
        + quoted 30%nat)%nat
  /\ String.length (get_demo_mode_response ch msg)
     = (String.length (get_demo_mode_response ch EmptyString)
        + quoted 50%nat)%nat.
Proof.
  intros named quoted. subst named quoted.
  rewrite !rate_limit_fallback_cases, !connection_fallback_cases,
    !invalid_request_fallback_cases, !generic_ai_fallback_cases,
    !demo_mode_response_cases.
  named_character ch.
  - cbn [String.eqb Ascii.eqb Bool.eqb orb].
    repeat split; apply template_length.
  - cbn [String.eqb Ascii.eqb Bool.eqb orb].
    repeat split; apply template_length.
  - cbn [String.eqb Ascii.eqb Bool.eqb orb].
    repeat split; apply template_length.
  - cbn [orb]. repeat split; lia.
Qed.

(** Two strings whose first seven characters differ are different. *)
Ltac differ_early :=
  let H := fresh in
  intros H; apply (f_equal (String.substring 0 7)) in H;
  vm_compute in H; discriminate H.

(** X25: for one character and one message, the rate-limit, connection,
    invalid-request, generic and demo-mode replies are five different
    texts, whatever the character: the kind of failure can be read off the
    reply. None of them is empty. *)
Theorem canned_replies_distinct (ch msg : string) :
  NoDup [get_rate_limit_fallback ch msg;
         get_connection_fallback ch msg;
         get_invalid_request_fallback ch msg;
         get_generic_ai_fallback ch msg;
         get_demo_mode_response ch msg]
  /\ Forall (fun reply => reply <> EmptyString)
       [get_rate_limit_fallback ch msg;
        get_connection_fallback ch msg;
        get_invalid_request_fallback ch msg;
        get_generic_ai_fallback ch msg;
        get_demo_mode_response ch msg].
Proof.
  rewrite rate_limit_fallback_cases, connection_fallback_cases,
    invalid_request_fallback_cases, generic_ai_fallback_cases,
    demo_mode_response_cases.
  named_character ch; cbn [String.eqb Ascii.eqb Bool.eqb];
    (split;
     [ apply (NoDup_fmap_1 (String.substring 0 7)); vm_compute;
       apply (bool_decide_unpack _); vm_compute; exact I
     | repeat (constructor; [differ_early|]); constructor ]).
Qed.


(** ** Knowledge retrieval *)

Lemma match_knowledge_items_app (msg : string)
    (before after : list KnowledgeItem) :
  (forall x, x ∈ before ->
     negb (Py.is_empty (Py.lower (default "" (item_q x))))
     && Py.contains (Py.lower (default "" (item_q x))) msg = false) ->
  match_knowledge_items msg (before ++ after) = match_knowledge_items msg after.
Proof.
  induction before as [|x before IH]; intros H; [reflexivity|].
  cbn [app match_knowledge_items].
  rewrite (H x) by apply list_elem_of_here.
  apply IH. intros y Hy. apply H. apply list_elem_of_further, Hy.
Qed.

Lemma knowledge_match_iff (msg : string) (x : KnowledgeItem) :
  negb (Py.is_empty (Py.lower (default "" (item_q x))))
  && Py.contains (Py.lower (default "" (item_q x))) msg = true
  <-> Py.lower (default "" (item_q x)) <> EmptyString
      /\ occurs_in (Py.lower (default "" (item_q x))) msg.
Proof.
  rewrite andb_true_iff, contains_occurs.
  destruct (Py.lower (default "" (item_q x))); cbn [Py.is_empty negb].
  - split; [intros [H _]; discriminate | intros [H _]; congruence].
  - split; intros [_ H]; (split; [discriminate || reflexivity | exact H]).
Qed.

(** X26: [match_knowledge] answers with the first item whose question, lower-
    cased, is not empty and occurs in the lower-cased, stripped message: the
    items before it that do not match are passed over, the items after it
    are never looked at, even when the matching item has no answer (the
    result is then [None], as when nothing matches). *)
Theorem match_knowledge_first_match (user_msg : string)
    (before after : list KnowledgeItem) (item : KnowledgeItem) :
  let msg := Py.strip (Py.lower user_msg) in
  let matches (x : KnowledgeItem) :=
    Py.lower (default "" (item_q x)) <> EmptyString
    /\ occurs_in (Py.lower (default "" (item_q x))) msg in
  (forall x, x ∈ before -> ~ matches x) ->
  (matches item ->
   match_knowledge user_msg (before ++ item :: after) = item_a item)
  /\ (~ matches item -> (forall x, x ∈ after -> ~ matches x) ->
      match_knowledge user_msg (before ++ item :: after) = None).
Proof.
  intros msg matches Hbefore. subst matches. unfold match_knowledge. fold msg.
  assert (Hno : forall l : list KnowledgeItem,
            (forall x, x ∈ l ->
               ~ (Py.lower (default "" (item_q x)) <> EmptyString
                  /\ occurs_in (Py.lower (default "" (item_q x))) msg)) ->
            forall x, x ∈ l ->
              negb (Py.is_empty (Py.lower (default "" (item_q x))))
              && Py.contains (Py.lower (default "" (item_q x))) msg = false).
  { intros l Hl x Hx. apply not_true_is_false. intros Ht.
    apply knowledge_match_iff in Ht. exact (Hl x Hx Ht). }
  rewrite (match_knowledge_items_app _ _ _ (Hno _ Hbefore)). split.
  - intros Hm. apply knowledge_match_iff in Hm.
    cbn [match_knowledge_items]. rewrite Hm. reflexivity.
  - intros Hm Hafter.
    assert (Hall : forall x, x ∈ item :: after ->
              ~ (Py.lower (default "" (item_q x)) <> EmptyString
                 /\ occurs_in (Py.lower (default "" (item_q x))) msg)).
    { intros x Hx. apply elem_of_cons in Hx as [->|Hx];
        [exact Hm | exact (Hafter x Hx)]. }
    rewrite <- (app_nil_r (item :: after)).
    rewrite (match_knowledge_items_app _ _ _ (Hno _ Hall)). reflexivity.
Qed.

Lemma match_knowledge_first_match_witness :
  match_knowledge "  Who are the SHADOW observers? "
    ([ {| item_q := Some ""; item_a := Some "never" |};
       {| item_q := None; item_a := Some "never" |} ]
     ++ {| item_q := Some "Shadow Observers"; item_a := None |}
     :: [ {| item_q := Some "who"; item_a := Some "hidden" |} ])
  = None.
Proof.
  apply (proj1 (match_knowledge_first_match
           "  Who are the SHADOW observers? "
           [ {| item_q := Some ""; item_a := Some "never" |};
             {| item_q := None; item_a := Some "never" |} ]
           [ {| item_q := Some "who"; item_a := Some "hidden" |} ]
           {| item_q := Some "Shadow Observers"; item_a := None |}
           ltac:(intros x Hx [Hne _];
                 apply elem_of_cons in Hx as [->|Hx];
                 [apply Hne; reflexivity|];
                 apply elem_of_cons in Hx as [->|Hx];
                 [apply Hne; reflexivity|];
                 apply elem_of_nil in Hx; exact Hx))).
  split; [discriminate|].
  exists "who are the ", "?". reflexivity.
Defined.

Lemma match_global_items_app (msg : string)
    (before after : list (string * string)) :
  (forall kv, kv ∈ before -> Py.contains (Py.lower kv.1) msg = false) ->
  match_global_items msg (before ++ after) = match_global_items msg after.
Proof.
  induction before as [|[k v] before IH]; intros H; [reflexivity|].
  cbn [app match_global_items].
  pose proof (H (k, v) (list_elem_of_here _ _)) as Hk. cbn [fst] in Hk.
  rewrite Hk. apply IH. intros y Hy. apply H. apply list_elem_of_further, Hy.
Qed.

(** X27: [match_global_knowledge] answers with the value of the first key of the
    dictionary that, lower-cased, occurs in the lower-cased, stripped
    message, and with [None] when no key does. Unlike the questions of
    [match_knowledge], an empty key is not passed over: it matches every
    message. *)
Theorem match_global_knowledge_first_match
    (before after : list (string * string)) (key value user_msg : string) :
  let msg := Py.strip (Py.lower user_msg) in
  (forall kv, kv ∈ before -> ~ occurs_in (Py.lower kv.1) msg) ->
  (occurs_in (Py.lower key) msg ->
   match_global_knowledge (before ++ (key, value) :: after) user_msg
   = Some value)
  /\ match_global_knowledge (before ++ (EmptyString, value) :: after) user_msg
     = Some value
  /\ match_global_knowledge before user_msg = None.
Proof.
  intros msg Hbefore. unfold match_global_knowledge. fold msg.
  assert (Hno : forall kv, kv ∈ before ->
            Py.contains (Py.lower kv.1) msg = false).
  { intros kv Hkv. apply not_true_is_false. intros Ht.
    apply contains_occurs in Ht. exact (Hbefore kv Hkv Ht). }
  split; [|split].
  - intros Hocc. rewrite (match_global_items_app _ _ _ Hno).
    cbn [match_global_items]. apply contains_occurs in Hocc.
    rewrite Hocc. reflexivity.
  - rewrite (match_global_items_app _ _ _ Hno). cbn [match_global_items].
    assert (He : Py.contains (Py.lower EmptyString) msg = true)
      by (apply contains_occurs, occurs_in_empty).
    rewrite He. reflexivity.
  - rewrite <- (app_nil_r before).
    rewrite (match_global_items_app _ _ _ Hno). reflexivity.
Qed.

Lemma match_global_knowledge_first_match_witness :
  match_global_knowledge
    ([("Chroma", "a colour")] ++ ("shadow observers", "they watch") :: [])
    "Tell me about the Shadow Observers"
  = Some "they watch".
Proof.
  apply (proj1 (match_global_knowledge_first_match
           [("Chroma", "a colour")] [] "shadow observers" "they watch"
           "Tell me about the Shadow Observers"
           ltac:(intros kv Hkv Hocc;
                 apply elem_of_cons in Hkv as [->|Hkv];
                 [apply contains_occurs in Hocc; vm_compute in Hocc;
                  discriminate Hocc
                 |apply elem_of_nil in Hkv; exact Hkv]))).
  exists "tell me about the ", "". reflexivity.
Defined.

(** ** Loading the catalogue and the allowed origins *)

Lemma load_json_skips_missing {J : Type} (path_exists : string -> bool)
    (read_json : string -> option J) (before after : list string) :
  (forall p, p ∈ before -> path_exists p = false) ->
  load_json_from_candidates path_exists read_json (before ++ after)
  = load_json_from_candidates path_exists read_json after.
Proof.
  induction before as [|p before IH]; intros H; [reflexivity|].
  cbn [app load_json_from_candidates].
  rewrite (H p) by apply list_elem_of_here.
  apply IH. intros q Hq. apply H, list_elem_of_further, Hq.
Qed.

(** X28: the loader is decided by the first candidate that exists: its content
    is returned when it can be read, and when it cannot the failure is
    raised without trying the candidates after it. Only when no candidate
    exists is the file reported as not found. *)
Theorem load_json_first_existing {J : Type} (path_exists : string -> bool)
    (read_json : string -> option J) (before after : list string)
    (p : string) :
  (forall q, q ∈ before -> path_exists q = false) ->
  (path_exists p = true ->
   load_json_from_candidates path_exists read_json (before ++ p :: after)
   = match read_json p with
     | Some content => Loaded content
     | None => ReadRaised p
     end)
  /\ load_json_from_candidates path_exists read_json before = NoCandidate
  /\ (forall candidates,
        load_json_from_candidates path_exists read_json candidates
        = NoCandidate ->
        forall q, q ∈ candidates -> path_exists q = false).
Proof.
  intros Hbefore. split; [|split].
  - intros Hp. rewrite (load_json_skips_missing _ _ _ _ Hbefore).
    cbn [load_json_from_candidates]. rewrite Hp. reflexivity.
  - rewrite <- (app_nil_r before).
    rewrite (load_json_skips_missing _ _ _ _ Hbefore). reflexivity.
  - induction candidates as [|c cs IH]; intros Hload q Hq.
    + apply elem_of_nil in Hq. contradiction.
    + cbn [load_json_from_candidates] in Hload.
      destruct (path_exists c) eqn:Ec.
      { destruct (read_json c); discriminate. }
      apply elem_of_cons in Hq as [->|Hq]; [exact Ec | exact (IH Hload q Hq)].
Qed.

Lemma load_json_first_existing_witness :
  load_json_from_candidates (fun p => String.eqb p "characters.json")
    (fun _ => Some 7%nat)
    (["chroma-bot/assets/config/characters.json"] ++ "characters.json" :: [])
  = Loaded 7%nat.
Proof.
  apply (proj1 (load_json_first_existing
           (fun p => String.eqb p "characters.json") (fun _ => Some 7%nat)
           ["chroma-bot/assets/config/characters.json"] [] "characters.json"
           ltac:(intros q Hq; apply elem_of_cons in Hq as [->|Hq];
                 [reflexivity | apply elem_of_nil in Hq; contradiction]))).
  reflexivity.
Defined.

(** X29: the catalogue at start-up: the file under [chroma-bot] is preferred to
    the one in the working directory; when it exists but cannot be read,
    the catalogue is empty even if the other file is there and sound; the
    other file is used only when the first does not exist; and with neither
    file the catalogue is empty. *)
Theorem load_characters_cases {J : Type} (empty : J)
    (path_exists : string -> bool) (read_json : string -> option J) :
  let first := "chroma-bot/assets/config/characters.json" in
  let second := "characters.json" in
  (path_exists first = true ->
   load_characters empty path_exists read_json
   = default empty (read_json first))
  /\ (path_exists first = false -> path_exists second = true ->
      load_characters empty path_exists read_json
      = default empty (read_json second))
  /\ (path_exists first = false -> path_exists second = false ->
      load_characters empty path_exists read_json = empty).
Proof.
  intros first second. subst first second.
  unfold load_characters, CHAR_PATHS. cbn [load_json_from_candidates].
  split; [|split].
  - intros ->. destruct (read_json _); reflexivity.
  - intros -> ->. destruct (read_json _); reflexivity.
  - intros -> ->. reflexivity.
Qed.

Lemma load_characters_cases_witness :
  load_characters 0%nat (fun _ => true)
    (fun p => if String.eqb p "characters.json" then Some 7%nat else None)
  = 0%nat.
Proof.
  apply (proj1 (load_characters_cases 0%nat (fun _ => true)
           (fun p => if String.eqb p "characters.json" then Some 7%nat
                     else None))).
  reflexivity.
Defined.

(** X30: the allowed origins: an environment variable that is set to the empty
    string counts as unset; the list is never empty; in production (one of
    [RAILWAY_ENVIRONMENT] and [PORT] set and not empty) every allowed origin
    is an [https] address and the origin ["null"] is not allowed; the
    address [https://data-bleed-vsc-game.vercel.app] is allowed in both
    settings, [https://chroma-bot-game.vercel.app] in production only. *)
Theorem cors_origins_by_environment (RAILWAY_ENVIRONMENT PORT : option string) :
  let origins := get_cors_origins RAILWAY_ENVIRONMENT PORT in
  let production := env_truthy RAILWAY_ENVIRONMENT || env_truthy PORT in
  get_cors_origins (Some EmptyString) (Some EmptyString)
    = get_cors_origins None None
  /\ origins <> []
  /\ "https://data-bleed-vsc-game.vercel.app" ∈ origins
  /\ ("https://chroma-bot-game.vercel.app" ∈ origins <-> production = true)
  /\ (production = true ->
      ("null" ∉ origins)
      /\ Forall (fun o => String.prefix "https://" o = true) origins)
  /\ (production = false -> "null" ∈ origins).
Proof.
  intros origins production. subst origins production.
  unfold get_cors_origins.
  destruct (env_truthy RAILWAY_ENVIRONMENT || env_truthy PORT).
  - split; [reflexivity|]. split; [discriminate|].
    split; [apply list_elem_of_In; cbn; tauto|].
    split; [split; [reflexivity | intros _; apply list_elem_of_here]|].
    split; [|discriminate]. intros _. split.
    + intros H. apply list_elem_of_In in H. cbn in H.
      destruct H as [H|[H|[]]]; discriminate.
    + repeat constructor.
  - split; [reflexivity|]. split; [discriminate|].
    split; [apply list_elem_of_here|].
    split.
    + split; [|discriminate]. intros H. apply list_elem_of_In in H.
      cbn in H. repeat (destruct H as [H|H]; [discriminate|]). contradiction.
    + split; [discriminate|]. intros _. apply list_elem_of_In. cbn. tauto.
Qed.

Lemma cors_origins_by_environment_witness :
  ("null" ∉ get_cors_origins None (Some "8080"))
  /\ Forall (fun o => String.prefix "https://" o = true)
       (get_cors_origins None (Some "8080")).
Proof.
  destruct (cors_origins_by_environment None (Some "8080"))
    as (_ & _ & _ & _ & H & _).
  apply H. reflexivity.
Defined.
